(** * Texture-draw batching (core/draw_textures.c)

    A shallow embedding of [draw_textures_item] and [draw_textures_flush]
    together with the file-static batching state they share, and the
    properties of the batching engine stated over that embedding.

    - C [int] is a [Z]; arithmetic on it wraps around in two's complement
      ([wrap_int]), which the counter never comes near;
    - C [float] is IEEE-754 binary32, as [spec_float] with [prec = 24] and
      [emax = 128]; comparisons are the IEEE ones ([SFeqb], [SFltb]);
    - the static array [buffer] is a [list bufobj]; a store outside
      [0 .. MAX_BUFFER_SIZE-1] is undefined behaviour and makes the
      computation fail;
    - calls into the GL layer and the shader module are recorded, in order,
      in a trace. *)

From Stdlib Require Import ZArith Lia List Bool QArith Qabs.
From Stdlib Require Import Floats.SpecFloat.
From stdpp Require Import base list.

Local Open Scope Z_scope.

(* ------------------------------------------------------------------ *)
(** ** Machine numbers *)

Module CInt.

Definition INT_MAX : Z := 2 ^ 31 - 1.
Definition INT_MIN : Z := - 2 ^ 31.

(** The value an [int] register holds after an operation whose exact
    result is [z]. *)
Definition wrap_int (z : Z) : Z := (z + 2 ^ 31) mod 2 ^ 32 - 2 ^ 31.

Definition add (a b : Z) : Z := wrap_int (a + b).
Definition sub (a b : Z) : Z := wrap_int (a - b).
Definition mul (a b : Z) : Z := wrap_int (a * b).

End CInt.

(** C [float]. *)
Definition float : Type := spec_float.

Module CFloat.

Definition prec : Z := 24.
Definition emax : Z := 128.

(** [(float) n] for an [int] n. *)
Definition of_int (n : Z) : float := binary_normalize prec emax n 0 false.

Definition add : float -> float -> float := SFadd prec emax.
Definition mul : float -> float -> float := SFmul prec emax.
Definition div : float -> float -> float := SFdiv prec emax.

(** [a == b], [a != b], [a > b], [a <= b] on floats. *)
Definition eqb (a b : float) : bool := SFeqb a b.
Definition neb (a b : float) : bool := negb (SFeqb a b).
Definition gtb (a b : float) : bool := SFltb b a.
Definition leb (a b : float) : bool := SFleb a b.

(** The rational a finite float denotes (0 for zeros; infinities and
    NaN denote no number and are mapped to 0 as well). *)
Definition to_Q (a : float) : Q :=
  match a with
  | S754_finite s m e =>
      let v := (inject_Z (Z.pos m) * Qpower 2 e)%Q in
      if s then Qopp v else v
  | _ => 0%Q
  end.

(** Same bit pattern (the model carries no NaN payload). *)
Definition same_bits (a b : float) : Prop := a = b.

End CFloat.

(* ------------------------------------------------------------------ *)
(** ** Types of the headers the file includes *)

(** Modelled from the spec: rect_2d, whose declaration (core/rect_2d.h) is
    not among the sources.  A rectangle in texel or local space: the code
    divides [src.x] by [(float) src_width] and compares [clip.height] with
    0, so the four fields are [float]. *)
Record rect_2d : Type := Rect2d {
  rect_x : float;
  rect_y : float;
  rect_width : float;
  rect_height : float
}.

(** Modelled from the spec: rgba, whose declaration (core/rgba.h) is not
    among the sources.  Four [float] components, as the initialiser of
    line 37 and the products of lines 208-216 use them. *)
Record rgba : Type := Rgba {
  rgba_r : float;
  rgba_g : float;
  rgba_b : float;
  rgba_a : float
}.

(** Modelled from the spec: rgba_equals, defined in core/rgba.c, which is
    not among the sources.  Section 6: "Color equality: exact
    (non-approximate) component-wise comparison of two RGBA colors". *)
Definition rgba_equals (c1 c2 : rgba) : bool :=
  CFloat.eqb (rgba_r c1) (rgba_r c2) &&
  CFloat.eqb (rgba_g c1) (rgba_g c2) &&
  CFloat.eqb (rgba_b c1) (rgba_b c2) &&
  CFloat.eqb (rgba_a c1) (rgba_a c2).

(** The eight floats [matrix_3x3_multiply] stores through its output
    pointers [&x1, &y1, .., &x4, &y4] (line 115). *)
Record corners : Type := Corners {
  x1 : float; y1 : float;
  x2 : float; y2 : float;
  x3 : float; y3 : float;
  x4 : float; y4 : float
}.

(** The GL enumerants the file mentions (platform/gl.h). *)
Inductive GLenum : Type :=
| GL_ZERO | GL_ONE
| GL_SRC_ALPHA | GL_ONE_MINUS_SRC_ALPHA
| GL_DST_ALPHA | GL_ONE_MINUS_DST_ALPHA
| GL_TEXTURE0 | GL_TEXTURE_2D
| GL_TEXTURE_MIN_FILTER | GL_TEXTURE_MAG_FILTER
| GL_TEXTURE_WRAP_S | GL_TEXTURE_WRAP_T
| GL_LINEAR | GL_NEAREST | GL_CLAMP_TO_EDGE
| GL_TRIANGLES | GL_FLOAT | GL_FALSE.

(** Shader programs (core/tealeaf_shaders.h). *)
Inductive shader : Type := PRIMARY_SHADER | LINEAR_ADD_SHADER.

(** Locations read from [global_shaders[current_shader]]. *)
Inductive shader_field : Type :=
| draw_color | add_color | vertex_coords | tex_coords.

(** What the included headers fix and this file only uses: the matrix
    type and its multiply (a pure function, section 6), the values of the
    composite-operation enumerators and of the filter kinds
    (core/tealeaf_context.h), and the single-shader toggle
    (core/tealeaf_shaders.h). *)
Class Headers : Type := {
  matrix_3x3 : Type;
  matrix_3x3_multiply : matrix_3x3 -> rect_2d -> corners;
  source_atop : Z;
  source_in : Z;
  source_out : Z;
  source_over : Z;
  destination_atop : Z;
  destination_in : Z;
  destination_out : Z;
  destination_over : Z;
  lighter : Z;
  x_or : Z;
  copy : Z;
  FILTER_NONE : Z;
  FILTER_LINEAR_ADD : Z;
  FILTER_MULTIPLY : Z;
  use_single_shader : bool
}.

(** Case labels of one [switch] are pairwise different constants. *)
Definition composite_ops `{Headers} : list Z :=
  [source_atop; source_in; source_out; source_over;
   destination_atop; destination_in; destination_out; destination_over;
   lighter; x_or; copy].

(* ------------------------------------------------------------------ *)
(** ** The file-static state *)

Definition MAX_BUFFER_SIZE : Z := 1024.

Record bufobj : Type := Bufobj {
  srcX1 : float; srcY1 : float; destX1 : float; destY1 : float;
  srcX2 : float; srcY2 : float; destX2 : float; destY2 : float;
  srcX3 : float; srcY3 : float; destX3 : float; destY3 : float
}.

Record globals : Type := Globals {
  lastName : Z;
  bufSize : Z;
  lastOpacity : float;
  last_composite_op : Z;
  last_filter_type : Z;
  last_filter_color : rgba;
  buffer : list bufobj
}.

Definition zero_float : float := S754_zero false.

Definition zero_bufobj : bufobj :=
  Bufobj zero_float zero_float zero_float zero_float
         zero_float zero_float zero_float zero_float
         zero_float zero_float zero_float zero_float.

(** The initialisers of lines 32-37; [buffer] has static storage and is
    zero-filled. *)
Definition initial : globals := {|
  lastName := -1;
  bufSize := 0;
  lastOpacity := CFloat.of_int 1;
  last_composite_op := 0;
  last_filter_type := 0;
  last_filter_color := Rgba (CFloat.of_int 0) (CFloat.of_int 0)
                            (CFloat.of_int 0) (CFloat.of_int 0);
  buffer := replicate (Z.to_nat MAX_BUFFER_SIZE) zero_bufobj
|}.

Definition set_lastName (v : Z) (s : globals) : globals :=
  Globals v (bufSize s) (lastOpacity s) (last_composite_op s)
          (last_filter_type s) (last_filter_color s) (buffer s).
Definition set_bufSize (v : Z) (s : globals) : globals :=
  Globals (lastName s) v (lastOpacity s) (last_composite_op s)
          (last_filter_type s) (last_filter_color s) (buffer s).
Definition set_lastOpacity (v : float) (s : globals) : globals :=
  Globals (lastName s) (bufSize s) v (last_composite_op s)
          (last_filter_type s) (last_filter_color s) (buffer s).
Definition set_last_composite_op (v : Z) (s : globals) : globals :=
  Globals (lastName s) (bufSize s) (lastOpacity s) v
          (last_filter_type s) (last_filter_color s) (buffer s).
Definition set_last_filter_type (v : Z) (s : globals) : globals :=
  Globals (lastName s) (bufSize s) (lastOpacity s) (last_composite_op s)
          v (last_filter_color s) (buffer s).
Definition set_last_filter_color (v : rgba) (s : globals) : globals :=
  Globals (lastName s) (bufSize s) (lastOpacity s) (last_composite_op s)
          (last_filter_type s) v (buffer s).
Definition set_buffer (v : list bufobj) (s : globals) : globals :=
  Globals (lastName s) (bufSize s) (lastOpacity s) (last_composite_op s)
          (last_filter_type s) (last_filter_color s) v.

(** The batch's state tuple. *)
Definition last_known (s : globals) : Z * float * Z * rgba * Z :=
  (lastName s, lastOpacity s, last_composite_op s,
   last_filter_color s, last_filter_type s).

(* ------------------------------------------------------------------ *)
(** ** Calls leaving the file, and the monad of the two functions *)

(** The calls the two functions make, with their arguments.
    [draw_textures_flush_call] records the call of line 82; the calls the
    flush makes in turn follow it in the trace.  Pointer arguments into
    [buffer] are given as offsets in floats. *)
Inductive call : Type :=
| draw_textures_flush_call
| glBlendFunc (sfactor dfactor : GLenum)
| tealeaf_shaders_bind (sh : shader)
| glUniform4f (location : shader_field) (v0 v1 v2 v3 : float)
| glActiveTexture (texture : GLenum)
| glBindTexture (target : GLenum) (texture : Z)
| glTexParameterf (target pname param : GLenum)
| glVertexAttribPointer (index : shader_field) (size : Z)
    (type normalized : GLenum) (stride : Z) (buffer_offset : Z)
| glDrawArrays (mode : GLenum) (first count : Z).

(** A computation reads and updates the globals, appends to the trace of
    calls, and fails on undefined behaviour. *)
Definition M (A : Type) : Type := globals -> option (A * globals * list call).

#[global] Instance M_ret : MRet M := fun A a s => Some (a, s, []).
#[global] Instance M_bind : MBind M := fun A B f m s =>
  match m s with
  | None => None
  | Some (a, s1, t1) =>
      match f a s1 with
      | None => None
      | Some (b, s2, t2) => Some (b, s2, t1 ++ t2)
      end
  end.

Definition get : M globals := fun s => Some (s, s, []).
Definition modify (f : globals -> globals) : M unit :=
  fun s => Some (tt, f s, []).
Definition emit (c : call) : M unit := fun s => Some (tt, s, [c]).
Definition undefined_behaviour {A : Type} : M A := fun _ => None.
Definition when (b : bool) (m : M unit) : M unit :=
  if b then m else mret tt.

(** [buffer[i] = v] *)
Definition store (i : Z) (v : bufobj) : M unit :=
  if (0 <=? i) && (i <? MAX_BUFFER_SIZE)
  then modify (fun s => set_buffer (<[Z.to_nat i := v]> (buffer s)) s)
  else undefined_behaviour.

Definition state_of {A : Type} (r : option (A * globals * list call))
  : option globals :=
  match r with Some (_, s, _) => Some s | None => None end.
Definition trace_of {A : Type} (r : option (A * globals * list call))
  : list call :=
  match r with Some (_, _, t) => t | None => [] end.

Definition is_flush_call (c : call) : bool :=
  match c with draw_textures_flush_call => true | _ => false end.

(** Number of times [draw_textures_flush] was entered from
    [draw_textures_item]. *)
Definition flush_count (t : list call) : nat :=
  length (List.filter is_flush_call t).

(* ------------------------------------------------------------------ *)
(** ** The two functions *)

Section Code.
Context `{Headers}.

(** The [switch (last_composite_op)] of lines 148-196: the pair
    [(sfactor, dfactor)] it leaves. *)
Definition blend_switch (op : Z) : GLenum * GLenum :=
  if op =? source_atop then (GL_DST_ALPHA, GL_ONE_MINUS_SRC_ALPHA)
  else if op =? source_in then (GL_DST_ALPHA, GL_ZERO)
  else if op =? source_out then (GL_ONE_MINUS_DST_ALPHA, GL_ZERO)
  else if op =? source_over then (GL_ONE, GL_ONE_MINUS_SRC_ALPHA)
  else if op =? destination_atop then (GL_DST_ALPHA, GL_SRC_ALPHA)
  else if op =? destination_in then (GL_ZERO, GL_SRC_ALPHA)
  else if op =? destination_out
       then (GL_ONE_MINUS_SRC_ALPHA, GL_ONE_MINUS_SRC_ALPHA)
  else if op =? destination_over then (GL_DST_ALPHA, GL_SRC_ALPHA)
  else if (op =? lighter) || (op =? x_or) || (op =? copy)
       then (GL_ONE, GL_ONE_MINUS_SRC_ALPHA)
  else (GL_ONE, GL_ONE_MINUS_SRC_ALPHA).

(** Lines 199-218: shader selection and colour uniforms. *)
Definition bind_shader (s : globals) : M unit :=
  let lastOpacity := lastOpacity s in
  let last_filter_color := last_filter_color s in
  if use_single_shader then
    emit (tealeaf_shaders_bind PRIMARY_SHADER);;
    emit (glUniform4f draw_color
            lastOpacity lastOpacity lastOpacity lastOpacity)
  else if last_filter_type s =? FILTER_NONE then
    emit (tealeaf_shaders_bind PRIMARY_SHADER);;
    emit (glUniform4f draw_color
            lastOpacity lastOpacity lastOpacity lastOpacity)
  else if last_filter_type s =? FILTER_LINEAR_ADD then
    let r := CFloat.mul (rgba_r last_filter_color) (rgba_a last_filter_color) in
    let g := CFloat.mul (rgba_g last_filter_color) (rgba_a last_filter_color) in
    let b := CFloat.mul (rgba_b last_filter_color) (rgba_a last_filter_color) in
    emit (tealeaf_shaders_bind LINEAR_ADD_SHADER);;
    emit (glUniform4f add_color r g b (CFloat.of_int 0));;
    emit (glUniform4f draw_color
            lastOpacity lastOpacity lastOpacity lastOpacity)
  else if last_filter_type s =? FILTER_MULTIPLY then
    emit (tealeaf_shaders_bind PRIMARY_SHADER);;
    emit (glUniform4f draw_color
            (CFloat.mul (rgba_r last_filter_color) lastOpacity)
            (CFloat.mul (rgba_g last_filter_color) lastOpacity)
            (CFloat.mul (rgba_b last_filter_color) lastOpacity)
            lastOpacity)
  else mret tt.

(** [draw_textures_flush], lines 139-243 ([DRAW_TEXTURES_PROFILE] is 0). *)
Definition draw_textures_flush : M unit :=
  s ← get;
  if bufSize s <=? 0 then mret tt
  else
    when (CFloat.gtb (lastOpacity s) (CFloat.of_int 0)) (
      let stride := CInt.mul 4 4 in
      let '(sfactor, dfactor) := blend_switch (last_composite_op s) in
      emit (glBlendFunc sfactor dfactor);;
      bind_shader s;;
      emit (glActiveTexture GL_TEXTURE0);;
      emit (glBindTexture GL_TEXTURE_2D (lastName s));;
      emit (glTexParameterf GL_TEXTURE_2D GL_TEXTURE_MIN_FILTER GL_LINEAR);;
      emit (glTexParameterf GL_TEXTURE_2D GL_TEXTURE_MAG_FILTER GL_NEAREST);;
      emit (glTexParameterf GL_TEXTURE_2D GL_TEXTURE_WRAP_S GL_CLAMP_TO_EDGE);;
      emit (glTexParameterf GL_TEXTURE_2D GL_TEXTURE_WRAP_T GL_CLAMP_TO_EDGE);;
      emit (glVertexAttribPointer vertex_coords 2 GL_FLOAT GL_FALSE stride 2);;
      emit (glVertexAttribPointer tex_coords 2 GL_FLOAT GL_FALSE stride 0);;
      emit (glDrawArrays GL_TRIANGLES 0 (CInt.mul 3 (bufSize s)))
    );;
    modify (set_bufSize 0).

(** The condition of line 80. *)
Definition flush_needed (s : globals) (name : Z) (opacity : float)
    (composite_op : Z) (filter_color : rgba) (filter_type : Z) : bool :=
  negb (name =? lastName s)
  || (MAX_BUFFER_SIZE <=? CInt.add (bufSize s) 2)
  || CFloat.neb (lastOpacity s) opacity
  || negb (composite_op =? last_composite_op s)
  || negb (rgba_equals (last_filter_color s) filter_color)
  || negb (last_filter_type s =? filter_type).

(** Lines 96-127: the two [bufobj] records written through [o] and
    [o2].  Every field of both is assigned. *)
Definition triangles (model_view : matrix_3x3) (src_width src_height : Z)
    (src dest : rect_2d) : bufobj * bufobj :=
  let sMin := CFloat.div (rect_x src) (CFloat.of_int src_width) in
  let tMin := CFloat.div (rect_y src) (CFloat.of_int src_height) in
  let sMax := CFloat.div (CFloat.add (rect_x src) (rect_width src))
                         (CFloat.of_int src_width) in
  let tMax := CFloat.div (CFloat.add (rect_y src) (rect_height src))
                         (CFloat.of_int src_height) in
  let c := matrix_3x3_multiply model_view dest in
  ({| srcX1 := sMin; srcY1 := tMax;
      srcX2 := sMax; srcY2 := tMax;
      srcX3 := sMin; srcY3 := tMin;
      destX1 := x4 c; destY1 := y4 c;
      destX2 := x3 c; destY2 := y3 c;
      destX3 := x1 c; destY3 := y1 c |},
   {| srcX1 := sMax; srcY1 := tMax;
      srcX2 := sMax; srcY2 := tMin;
      srcX3 := sMin; srcY3 := tMin;
      destX1 := x3 c; destY1 := y3 c;
      destX2 := x2 c; destY2 := y2 c;
      destX3 := x1 c; destY3 := y1 c |}).

(** The clip test of line 76. *)
Definition degenerate (clip : rect_2d) : bool :=
  CFloat.eqb (rect_height clip) (CFloat.of_int 0)
  || CFloat.eqb (rect_width clip) (CFloat.of_int 0).

(** [draw_textures_item], lines 74-128. *)
Definition draw_textures_item (model_view : matrix_3x3)
    (name src_width src_height orig_width orig_height : Z)
    (src dest clip : rect_2d) (opacity : float) (composite_op : Z)
    (filter_color : rgba) (filter_type : Z) : M unit :=
  if degenerate clip then mret tt
  else
    s ← get;
    when (flush_needed s name opacity composite_op filter_color filter_type) (
      emit draw_textures_flush_call;;
      draw_textures_flush;;
      modify (set_lastName name);;
      modify (set_lastOpacity opacity);;
      modify (set_last_composite_op composite_op);;
      modify (set_last_filter_color
                (Rgba (rgba_r filter_color) (rgba_g filter_color)
                      (rgba_b filter_color) (rgba_a filter_color)));;
      modify (set_last_filter_type filter_type)
    );;
    modify (fun s => set_bufSize (CInt.add (bufSize s) 2) s);;
    s ← get;
    let o := CInt.sub (bufSize s) 2 in
    let o2 := CInt.add o 1 in
    let '(t, t2) := triangles model_view src_width src_height src dest in
    store o t;;
    store o2 t2.

(** *** Sequences of calls made by the renderer *)

Record submit : Type := Submit {
  q_model_view : matrix_3x3;
  q_name : Z;
  q_src_width : Z;
  q_src_height : Z;
  q_orig_width : Z;
  q_orig_height : Z;
  q_src : rect_2d;
  q_dest : rect_2d;
  q_clip : rect_2d;
  q_opacity : float;
  q_composite_op : Z;
  q_filter_color : rgba;
  q_filter_type : Z
}.

Definition item (q : submit) : M unit :=
  draw_textures_item (q_model_view q) (q_name q) (q_src_width q)
    (q_src_height q) (q_orig_width q) (q_orig_height q) (q_src q)
    (q_dest q) (q_clip q) (q_opacity q) (q_composite_op q)
    (q_filter_color q) (q_filter_type q).

Inductive op : Type :=
| Item (q : submit)
| Flush.

Definition exec (o : op) : M unit :=
  match o with
  | Item q => item q
  | Flush => draw_textures_flush
  end.

Fixpoint run (ops : list op) : M unit :=
  match ops with
  | [] => mret tt
  | o :: rest => exec o;; run rest
  end.

(** The state tuple a request carries. *)
Definition requested (q : submit) : Z * float * Z * rgba * Z :=
  (q_name q, q_opacity q, q_composite_op q, q_filter_color q,
   q_filter_type q).

Definition needs_flush (s : globals) (q : submit) : bool :=
  flush_needed s (q_name q) (q_opacity q) (q_composite_op q)
    (q_filter_color q) (q_filter_type q).

End Code.

(* ------------------------------------------------------------------ *)
(** ** States and traces the two functions are characterised by *)

Definition is_blend_call (c : call) : bool :=
  match c with glBlendFunc _ _ => true | _ => false end.
Definition is_shader_call (c : call) : bool :=
  match c with
  | tealeaf_shaders_bind _ | glUniform4f _ _ _ _ _ => true
  | _ => false
  end.

(** [x], written with four decimals, is [d]. *)
Definition four_decimals (x : float) (d : Q) : Prop :=
  (Qabs (CFloat.to_Q x - d) < 5 # 100000)%Q.

(** The three texture coordinates of a triangle, in vertex order. *)
Definition tex_coords_of (o : bufobj) : list (float * float) :=
  [ (srcX1 o, srcY1 o); (srcX2 o, srcY2 o); (srcX3 o, srcY3 o) ].

Section Outcomes.
Context `{Headers}.

(** The state [draw_textures_flush] leaves. *)
Definition flushed (s : globals) : globals :=
  if bufSize s <=? 0 then s else set_bufSize 0 s.

(** The calls of a flush that draws: blend function, shader path, then
    the texture set-up and the draw. *)
Definition texture_and_draw (s : globals) : list call :=
  [ glActiveTexture GL_TEXTURE0;
    glBindTexture GL_TEXTURE_2D (lastName s);
    glTexParameterf GL_TEXTURE_2D GL_TEXTURE_MIN_FILTER GL_LINEAR;
    glTexParameterf GL_TEXTURE_2D GL_TEXTURE_MAG_FILTER GL_NEAREST;
    glTexParameterf GL_TEXTURE_2D GL_TEXTURE_WRAP_S GL_CLAMP_TO_EDGE;
    glTexParameterf GL_TEXTURE_2D GL_TEXTURE_WRAP_T GL_CLAMP_TO_EDGE;
    glVertexAttribPointer vertex_coords 2 GL_FLOAT GL_FALSE 16 2;
    glVertexAttribPointer tex_coords 2 GL_FLOAT GL_FALSE 16 0;
    glDrawArrays GL_TRIANGLES 0 (CInt.mul 3 (bufSize s)) ].

(** The batch state after the trigger branch (lines 83-90). *)
Definition adopt (name : Z) (opacity : float) (composite_op : Z)
    (filter_color : rgba) (filter_type : Z) (s : globals) : globals :=
  {| lastName := name;
     bufSize := bufSize s;
     lastOpacity := opacity;
     last_composite_op := composite_op;
     last_filter_type := filter_type;
     last_filter_color := filter_color;
     buffer := buffer s |}.

(** The state the quad is appended to: the flushed state with the new
    tuple if line 80 holds, the unchanged state otherwise. *)
Definition batch_for (s : globals) (name : Z) (opacity : float)
    (composite_op : Z) (filter_color : rgba) (filter_type : Z) : globals :=
  if flush_needed s name opacity composite_op filter_color filter_type
  then adopt name opacity composite_op filter_color filter_type (flushed s)
  else s.

(** *** The specification's wording *)

(** The composite-operation table of section 6, row by row. *)
Definition blend_table : list (Z * (GLenum * GLenum)) :=
  [ (source_atop, (GL_DST_ALPHA, GL_ONE_MINUS_SRC_ALPHA));
    (source_in, (GL_DST_ALPHA, GL_ZERO));
    (source_out, (GL_ONE_MINUS_DST_ALPHA, GL_ZERO));
    (source_over, (GL_ONE, GL_ONE_MINUS_SRC_ALPHA));
    (destination_atop, (GL_DST_ALPHA, GL_SRC_ALPHA));
    (destination_in, (GL_ZERO, GL_SRC_ALPHA));
    (destination_out, (GL_ONE_MINUS_SRC_ALPHA, GL_ONE_MINUS_SRC_ALPHA));
    (destination_over, (GL_DST_ALPHA, GL_SRC_ALPHA));
    (lighter, (GL_ONE, GL_ONE_MINUS_SRC_ALPHA));
    (x_or, (GL_ONE, GL_ONE_MINUS_SRC_ALPHA));
    (copy, (GL_ONE, GL_ONE_MINUS_SRC_ALPHA)) ].

(** The pair of the table's last row, also used for operations the
    table does not list. *)
Definition source_over_pair : GLenum * GLenum :=
  (GL_ONE, GL_ONE_MINUS_SRC_ALPHA).

(** The flush trigger of section 4.1 with the comparisons C makes:
    [!=] on floats is the IEEE one. *)
Definition trigger (s : globals) (name : Z) (opacity : float)
    (composite_op : Z) (filter_color : rgba) (filter_type : Z) : Prop :=
  name <> lastName s
  \/ bufSize s + 2 >= MAX_BUFFER_SIZE
  \/ CFloat.eqb (lastOpacity s) opacity = false
  \/ composite_op <> last_composite_op s
  \/ rgba_equals (last_filter_color s) filter_color = false
  \/ last_filter_type s <> filter_type.

(** The same trigger with the opacity compared bit for bit. *)
Definition trigger_bit_exact (s : globals) (name : Z) (opacity : float)
    (composite_op : Z) (filter_color : rgba) (filter_type : Z) : Prop :=
  name <> lastName s
  \/ bufSize s + 2 >= MAX_BUFFER_SIZE
  \/ ~ CFloat.same_bits (lastOpacity s) opacity
  \/ composite_op <> last_composite_op s
  \/ rgba_equals (last_filter_color s) filter_color = false
  \/ last_filter_type s <> filter_type.

(** Some field of the state tuple changes from [q1] to [q2]. *)
Definition changes (q1 q2 : submit) : Prop :=
  q_name q2 <> q_name q1
  \/ CFloat.eqb (q_opacity q1) (q_opacity q2) = false
  \/ q_composite_op q2 <> q_composite_op q1
  \/ rgba_equals (q_filter_color q1) (q_filter_color q2) = false
  \/ q_filter_type q1 <> q_filter_type q2.

(** The batch's tuple equals the request's under C's comparisons. *)
Definition matches (s : globals) (q : submit) : Prop :=
  q_name q = lastName s
  /\ CFloat.eqb (lastOpacity s) (q_opacity q) = true
  /\ q_composite_op q = last_composite_op s
  /\ rgba_equals (last_filter_color s) (q_filter_color q) = true
  /\ last_filter_type s = q_filter_type q.

(** The tuple the batch carries is indistinguishable, for C's
    comparisons, from the one last adopted. *)
Definition close_to (s : globals) (q : submit) : Prop :=
  q_name q = lastName s
  /\ (forall o, CFloat.eqb (lastOpacity s) o = CFloat.eqb (q_opacity q) o)
  /\ q_composite_op q = last_composite_op s
  /\ (forall c, rgba_equals (last_filter_color s) c
                = rgba_equals (q_filter_color q) c)
  /\ last_filter_type s = q_filter_type q.

(** No float of the tuple is a NaN: each compares equal to itself. *)
Definition comparable (q : submit) : Prop :=
  CFloat.eqb (q_opacity q) (q_opacity q) = true
  /\ rgba_equals (q_filter_color q) (q_filter_color q) = true.

(** The array keeps its declared size and the counter stays inside it. *)
Definition buffer_ok (s : globals) : Prop :=
  0 <= bufSize s <= MAX_BUFFER_SIZE
  /\ length (buffer s) = Z.to_nat MAX_BUFFER_SIZE.

End Outcomes.


(* ------------------------------------------------------------------ *)
(** ** Accounting over traces and over sequences of calls *)

Definition is_draw_call (c : call) : bool :=
  match c with glDrawArrays _ _ _ => true | _ => false end.

Definition is_bind_texture (c : call) : bool :=
  match c with glBindTexture _ _ => true | _ => false end.

(** The vertices the draw calls of a trace cover, summed. *)
Definition drawn_vertices (t : list call) : Z :=
  fold_right (fun c n => match c with
                         | glDrawArrays _ _ count => count + n
                         | _ => n
                         end) 0 t.

(** An infinity or a NaN. *)
Definition non_finite (x : float) : bool :=
  match x with
  | S754_nan | S754_infinity _ => true
  | _ => false
  end.

(** The three vertices of a triangle: position, then texture
    coordinate. *)
Definition vertices_of (o : bufobj)
  : list ((float * float) * (float * float)) :=
  [ ((destX1 o, destY1 o), (srcX1 o, srcY1 o));
    ((destX2 o, destY2 o), (srcX2 o, srcY2 o));
    ((destX3 o, destY3 o), (srcX3 o, srcY3 o)) ].

Section Accounting.
Context `{Headers}.

(** The two triangles a request is turned into. *)
Definition quad_of (q : submit) : bufobj * bufobj :=
  triangles (q_model_view q) (q_src_width q) (q_src_height q)
    (q_src q) (q_dest q).


(** Every call but a submit dropped by the clip test. *)
Definition visible (o : op) : bool :=
  match o with
  | Item q => negb (degenerate (q_clip q))
  | Flush => true
  end.



(** The counter is even and leaves the last two slots free, which are
    still zero-filled. *)
Definition tight (s : globals) : Prop :=
  Z.even (bufSize s) = true
  /\ 0 <= bufSize s <= MAX_BUFFER_SIZE - 2
  /\ length (buffer s) = Z.to_nat MAX_BUFFER_SIZE
  /\ buffer s !! Z.to_nat (MAX_BUFFER_SIZE - 2) = Some zero_bufobj
  /\ buffer s !! Z.to_nat (MAX_BUFFER_SIZE - 1) = Some zero_bufobj.

End Accounting.
(* ------------------------------------------------------------------ *)
(** ** A concrete set of header values, and sample inputs *)

(** Sample values for what the headers fix: a transform that is a plain
    translation, enumerators numbered consecutively, the per-filter shader
    path. *)
Definition sample_multiply (m : float * float) (d : rect_2d) : corners :=
  let xl := CFloat.add (rect_x d) (fst m) in
  let yt := CFloat.add (rect_y d) (snd m) in
  let xr := CFloat.add xl (rect_width d) in
  let yb := CFloat.add yt (rect_height d) in
  Corners xl yt xr yt xr yb xl yb.

Definition sample_headers : Headers := {|
  matrix_3x3 := float * float;
  matrix_3x3_multiply := sample_multiply;
  source_atop := 1337;
  source_in := 1338;
  source_out := 1339;
  source_over := 1340;
  destination_atop := 1341;
  destination_in := 1342;
  destination_out := 1343;
  destination_over := 1344;
  lighter := 1345;
  x_or := 1346;
  copy := 1347;
  FILTER_NONE := 0;
  FILTER_LINEAR_ADD := 1;
  FILTER_MULTIPLY := 2;
  use_single_shader := false
|}.

Definition f32 (n : Z) : float := CFloat.of_int n.

Definition sample_rect (x y w h : Z) : rect_2d :=
  Rect2d (f32 x) (f32 y) (f32 w) (f32 h).

Definition black : rgba := Rgba (f32 0) (f32 0) (f32 0) (f32 0).

(** Texture 7, a 100x200 texture, source rectangle (10,20,30,40). *)
Definition sample_submit (opacity : float) : @submit sample_headers :=
  @Submit sample_headers (f32 0, f32 0) 7 100 200 100 200
    (sample_rect 10 20 30 40) (sample_rect 0 0 30 40) (sample_rect 0 0 320 480)
    opacity 1340 black 0.

(** The state a computation ends in ([initial] if it failed). *)
Definition final {A : Type} (r : option (A * globals * list call)) : globals :=
  match r with Some (_, s, _) => s | None => initial end.

Definition opaque_submit : @submit sample_headers := sample_submit (f32 1).
Definition transparent_submit : @submit sample_headers := sample_submit (f32 0).

(** The same request with opacity [-0.0f]. *)
Definition neg_zero : float := S754_zero true.
Definition neg_zero_submit : @submit sample_headers := sample_submit neg_zero.

(** The same request on texture 8. *)
Definition other_texture_submit : @submit sample_headers :=
  @Submit sample_headers (f32 0, f32 0) 8 100 200 100 200
    (sample_rect 10 20 30 40) (sample_rect 0 0 30 40) (sample_rect 0 0 320 480)
    (f32 1) 1340 black 0.

(** The batch after one submit from the initial state: one quad of
    texture 7 at opacity 1, respectively at opacity 0. *)
Definition one_quad : globals :=
  final (@item sample_headers opaque_submit initial).
Definition one_transparent_quad : globals :=
  final (@item sample_headers transparent_submit initial).

(** One quad batched under a filter kind the headers do not define. *)
Definition one_quad_unknown_filter : globals := set_last_filter_type 9 one_quad.

(** A clip rectangle of width 0. *)
Definition empty_clip : rect_2d := sample_rect 0 0 0 480.

(** The sample header values with the single-shader toggle on. *)
Definition single_shader_headers : Headers := {|
  matrix_3x3 := float * float;
  matrix_3x3_multiply := sample_multiply;
  source_atop := 1337;
  source_in := 1338;
  source_out := 1339;
  source_over := 1340;
  destination_atop := 1341;
  destination_in := 1342;
  destination_out := 1343;
  destination_over := 1344;
  lighter := 1345;
  x_or := 1346;
  copy := 1347;
  FILTER_NONE := 0;
  FILTER_LINEAR_ADD := 1;
  FILTER_MULTIPLY := 2;
  use_single_shader := true
|}.

(** A filter colour with components 1/2, 1/4, 1, 1/2. *)
Definition half : float := CFloat.div (f32 1) (f32 2).
Definition quarter : float := CFloat.div (f32 1) (f32 4).
Definition tint : rgba := Rgba half quarter (f32 1) half.

(** One quad batched under the additive, respectively the multiplicative
    filter with colour [tint]. *)
Definition one_quad_linear_add : globals :=
  set_last_filter_color tint (set_last_filter_type 1 one_quad).
Definition one_quad_multiply : globals :=
  set_last_filter_color tint (set_last_filter_type 2 one_quad).

(** The sample request with a NaN opacity. *)
Definition nan_submit : @submit sample_headers := sample_submit S754_nan.


(* ------------------------------------------------------------------ *)
(** ** Arithmetic and float facts *)

Lemma wrap_int_small (z : Z) :
  CInt.INT_MIN <= z <= CInt.INT_MAX -> CInt.wrap_int z = z.
Proof.
  unfold CInt.INT_MIN, CInt.INT_MAX, CInt.wrap_int. intros Hz.
  rewrite Z.mod_small by lia. lia.
Qed.

Lemma float_zero_literal : CFloat.of_int 0 = S754_zero false.
Proof. reflexivity. Qed.

(** [x <= 0] excludes [x > 0], also for infinities; NaN satisfies
    neither. *)
Lemma float_leb_0_not_gtb (x : float) :
  CFloat.leb x (CFloat.of_int 0) = true ->
  CFloat.gtb x (CFloat.of_int 0) = false.
Proof.
  rewrite float_zero_literal. unfold CFloat.leb, CFloat.gtb, SFleb, SFltb.
  destruct x as [sx|sx| |sx m e]; simpl; try destruct sx; simpl; congruence.
Qed.

(** IEEE equality relates a float to itself (NaN excepted) and the two
    zeros to each other, and to nothing else. *)
Lemma float_eqb_cases (a b : float) :
  CFloat.eqb a b = true ->
  a = b \/ exists s1 s2, a = S754_zero s1 /\ b = S754_zero s2.
Proof.
  unfold CFloat.eqb, SFeqb.
  destruct a as [sa|sa| |sa ma ea], b as [sb|sb| |sb mb eb]; simpl;
    try discriminate;
    try (destruct sa; discriminate); try (destruct sb; discriminate).
  - intros _. right. eauto.
  - destruct sa, sb; intros; try discriminate; left; reflexivity.
  - destruct sa, sb; try discriminate;
      destruct (Z.compare_spec ea eb) as [->| |]; try discriminate;
      destruct (Pos.compare_cont Eq ma mb) eqn:Hc; try discriminate;
      intros _; left; f_equal; apply Pos.compare_eq, Hc.
Qed.

Lemma float_eqb_congr (a b c : float) :
  CFloat.eqb a b = true -> CFloat.eqb a c = CFloat.eqb b c.
Proof.
  intros Hab. destruct (float_eqb_cases a b Hab) as [->|(s1 & s2 & -> & ->)];
    [reflexivity|].
  destruct c; reflexivity.
Qed.

Lemma rgba_equals_congr (a b c : rgba) :
  rgba_equals a b = true -> rgba_equals a c = rgba_equals b c.
Proof.
  unfold rgba_equals. intros Hab.
  apply andb_true_iff in Hab. destruct Hab as [Hab Ha].
  apply andb_true_iff in Hab. destruct Hab as [Hab Hb].
  apply andb_true_iff in Hab. destruct Hab as [Hr Hg].
  rewrite (float_eqb_congr _ _ _ Hr), (float_eqb_congr _ _ _ Hg),
    (float_eqb_congr _ _ _ Hb), (float_eqb_congr _ _ _ Ha).
  reflexivity.
Qed.

Lemma rgba_eta (c : rgba) :
  Rgba (rgba_r c) (rgba_g c) (rgba_b c) (rgba_a c) = c.
Proof. destruct c; reflexivity. Qed.

(* ------------------------------------------------------------------ *)
(** ** Running the monad *)

Lemma run_bind {A B : Type} (m : M A) (f : A -> M B) (s : globals) :
  (m ≫= f) s =
  match m s with
  | None => None
  | Some (a, s1, t1) =>
      match f a s1 with
      | None => None
      | Some (b, s2, t2) => Some (b, s2, t1 ++ t2)
      end
  end.
Proof. reflexivity. Qed.

Lemma run_emit_then {B : Type} (c : call) (k : M B) (s : globals) :
  (emit c;; k) s =
  match k s with
  | None => None
  | Some (b, s2, t2) => Some (b, s2, c :: t2)
  end.
Proof. rewrite run_bind. unfold emit. destruct (k s) as [[[b s2] t2]|]; reflexivity. Qed.

Lemma run_emit (c : call) (s : globals) : emit c s = Some (tt, s, [c]).
Proof. reflexivity. Qed.

Lemma run_modify_then {B : Type} (f : globals -> globals) (k : M B) (s : globals) :
  (modify f;; k) s = k (f s).
Proof.
  rewrite run_bind. unfold modify.
  destruct (k (f s)) as [[[b s2] t2]|]; reflexivity.
Qed.

Lemma run_modify (f : globals -> globals) (s : globals) :
  modify f s = Some (tt, f s, []).
Proof. reflexivity. Qed.

Lemma run_get_then {B : Type} (k : globals -> M B) (s : globals) :
  (get ≫= k) s = k s s.
Proof.
  rewrite run_bind. unfold get.
  destruct (k s s) as [[[b s2] t2]|]; reflexivity.
Qed.

Section Proofs.
Context `{Headers}.

(** *** [draw_textures_flush] *)

Lemma bind_shader_total (s s0 : globals) :
  exists t, bind_shader s s0 = Some (tt, s0, t).
Proof.
  unfold bind_shader.
  destruct use_single_shader; [eexists; reflexivity|].
  destruct (last_filter_type s =? FILTER_NONE); [eexists; reflexivity|].
  destruct (last_filter_type s =? FILTER_LINEAR_ADD); [eexists; reflexivity|].
  destruct (last_filter_type s =? FILTER_MULTIPLY); eexists; reflexivity.
Qed.

Lemma flush_empty (s : globals) :
  bufSize s <= 0 -> draw_textures_flush s = Some (tt, s, []).
Proof.
  intros Hb. unfold draw_textures_flush. rewrite run_get_then.
  destruct (Z.leb_spec (bufSize s) 0); [reflexivity|lia].
Qed.

Lemma flush_skipped (s : globals) :
  0 < bufSize s -> CFloat.gtb (lastOpacity s) (CFloat.of_int 0) = false ->
  draw_textures_flush s = Some (tt, set_bufSize 0 s, []).
Proof.
  intros Hb Ho. unfold draw_textures_flush. rewrite run_get_then.
  destruct (Z.leb_spec (bufSize s) 0); [lia|].
  rewrite Ho. reflexivity.
Qed.

Lemma flush_draws (s : globals) :
  0 < bufSize s -> CFloat.gtb (lastOpacity s) (CFloat.of_int 0) = true ->
  draw_textures_flush s =
  Some (tt, set_bufSize 0 s,
        glBlendFunc (fst (blend_switch (last_composite_op s)))
                    (snd (blend_switch (last_composite_op s)))
        :: trace_of (bind_shader s s) ++ texture_and_draw s).
Proof.
  intros Hb Ho. unfold draw_textures_flush. rewrite run_get_then.
  destruct (Z.leb_spec (bufSize s) 0); [lia|].
  rewrite Ho. unfold when.
  destruct (blend_switch (last_composite_op s)) as [sf df]. simpl fst; simpl snd.
  destruct (bind_shader_total s s) as [t Ht].
  rewrite run_bind, run_emit_then, run_bind, Ht. simpl trace_of.
  rewrite !run_emit_then, run_emit. unfold modify.
  rewrite app_nil_r. reflexivity.
Qed.

Lemma flush_total (s : globals) :
  draw_textures_flush s =
  Some (tt, flushed s, trace_of (draw_textures_flush s)).
Proof.
  unfold flushed. destruct (Z.leb_spec (bufSize s) 0).
  - rewrite flush_empty by lia. reflexivity.
  - destruct (CFloat.gtb (lastOpacity s) (CFloat.of_int 0)) eqn:Ho.
    + rewrite flush_draws by (assumption || lia). reflexivity.
    + rewrite flush_skipped by (assumption || lia). reflexivity.
Qed.


(** *** [draw_textures_item] *)

Lemma item_degenerate mv name sw sh ow oh src dest clip opacity cop fc ft s :
  degenerate clip = true ->
  draw_textures_item mv name sw sh ow oh src dest clip opacity cop fc ft s
  = Some (tt, s, []).
Proof. intros Hd. unfold draw_textures_item. rewrite Hd. reflexivity. Qed.

Lemma store_in_range (i : Z) (v : bufobj) (s : globals) :
  0 <= i < MAX_BUFFER_SIZE ->
  store i v s = Some (tt, set_buffer (<[Z.to_nat i := v]> (buffer s)) s, []).
Proof.
  intros Hi. unfold store.
  destruct (Z.leb_spec 0 i); [|lia].
  destruct (Z.ltb_spec i MAX_BUFFER_SIZE); [|lia]. reflexivity.
Qed.

(** Lines 93-127 from a state with room for two more slots. *)
Lemma append_run mv sw sh src dest (s : globals) :
  0 <= bufSize s -> bufSize s + 2 <= MAX_BUFFER_SIZE ->
  (modify (fun s => set_bufSize (CInt.add (bufSize s) 2) s);;
   s ← get;
   let o := CInt.sub (bufSize s) 2 in
   let o2 := CInt.add o 1 in
   let '(t, t2) := triangles mv sw sh src dest in
   store o t;; store o2 t2) s
  = Some (tt,
          {| lastName := lastName s;
             bufSize := bufSize s + 2;
             lastOpacity := lastOpacity s;
             last_composite_op := last_composite_op s;
             last_filter_type := last_filter_type s;
             last_filter_color := last_filter_color s;
             buffer := <[Z.to_nat (bufSize s + 1) := snd (triangles mv sw sh src dest)]>
                         (<[Z.to_nat (bufSize s) := fst (triangles mv sw sh src dest)]>
                            (buffer s)) |},
          []).
Proof.
  intros H0 H1. unfold MAX_BUFFER_SIZE in H1.
  rewrite run_modify_then, run_get_then.
  destruct (triangles mv sw sh src dest) as [t t2]. simpl fst; simpl snd.
  unfold set_bufSize at 1 2. simpl bufSize.
  unfold CInt.add, CInt.sub.
  rewrite (wrap_int_small (bufSize s + 2)) by (unfold CInt.INT_MIN, CInt.INT_MAX; lia).
  replace (bufSize s + 2 - 2) with (bufSize s) by lia.
  rewrite (wrap_int_small (bufSize s)) by (unfold CInt.INT_MIN, CInt.INT_MAX; lia).
  rewrite (wrap_int_small (bufSize s + 1)) by (unfold CInt.INT_MIN, CInt.INT_MAX; lia).
  rewrite run_bind, store_in_range by (unfold MAX_BUFFER_SIZE; lia).
  rewrite store_in_range by (unfold MAX_BUFFER_SIZE; lia).
  reflexivity.
Qed.

Lemma flush_needed_false_room s name opacity cop fc ft :
  0 <= bufSize s <= MAX_BUFFER_SIZE ->
  flush_needed s name opacity cop fc ft = false ->
  bufSize s + 2 < MAX_BUFFER_SIZE.
Proof.
  intros Hb Hf. unfold flush_needed in Hf.
  repeat (apply orb_false_elim in Hf; destruct Hf as [Hf ?]).
  unfold CInt.add in *. unfold MAX_BUFFER_SIZE in *.
  rewrite wrap_int_small in * by (unfold CInt.INT_MIN, CInt.INT_MAX; lia).
  apply Z.leb_gt. assumption.
Qed.

Lemma item_run mv name sw sh ow oh src dest clip opacity cop fc ft s :
  degenerate clip = false ->
  0 <= bufSize s <= MAX_BUFFER_SIZE ->
  let trig := flush_needed s name opacity cop fc ft in
  let b := batch_for s name opacity cop fc ft in
  draw_textures_item mv name sw sh ow oh src dest clip opacity cop fc ft s
  = Some (tt,
          {| lastName := lastName b;
             bufSize := bufSize b + 2;
             lastOpacity := lastOpacity b;
             last_composite_op := last_composite_op b;
             last_filter_type := last_filter_type b;
             last_filter_color := last_filter_color b;
             buffer := <[Z.to_nat (bufSize b + 1) := snd (triangles mv sw sh src dest)]>
                         (<[Z.to_nat (bufSize b) := fst (triangles mv sw sh src dest)]>
                            (buffer s)) |},
          if trig
          then draw_textures_flush_call :: trace_of (draw_textures_flush s)
          else []).
Proof.
  intros Hd Hb trig b. unfold draw_textures_item. rewrite Hd.
  rewrite run_get_then, run_bind.
  subst trig b. unfold batch_for.
  destruct (flush_needed s name opacity cop fc ft) eqn:Hf; unfold when.
  - assert (Hz : bufSize (flushed s) = 0).
    { unfold flushed. destruct (Z.leb_spec (bufSize s) 0); [lia | reflexivity]. }
    assert (Hbuf : buffer (flushed s) = buffer s).
    { unfold flushed. destruct (bufSize s <=? 0); reflexivity. }
    rewrite run_emit_then, run_bind, flush_total.
    rewrite !run_modify_then, run_modify, rgba_eta.
    rewrite append_run by (simpl; rewrite Hz; unfold MAX_BUFFER_SIZE; lia).
    simpl. rewrite Hbuf, !app_nil_r. reflexivity.
  - pose proof (flush_needed_false_room _ _ _ _ _ _ Hb Hf) as Hroom.
    change ((mret tt : M unit) s) with (Some (tt, s, @nil call)). cbv beta iota.
    rewrite append_run by lia. reflexivity.
Qed.


(** *** What a flush can emit *)

Lemma bind_shader_calls (s s0 : globals) (c : call) :
  c ∈ trace_of (bind_shader s s0) -> is_shader_call c = true.
Proof.
  unfold bind_shader.
  destruct use_single_shader;
    [|destruct (last_filter_type s =? FILTER_NONE);
      [|destruct (last_filter_type s =? FILTER_LINEAR_ADD);
        [|destruct (last_filter_type s =? FILTER_MULTIPLY)]]];
    simpl; intros Hc;
    repeat (apply elem_of_cons in Hc; destruct Hc as [->|Hc]; [reflexivity|]);
    apply elem_of_nil in Hc; contradiction.
Qed.

Lemma flush_count_app (t1 t2 : list call) :
  flush_count (t1 ++ t2) = (flush_count t1 + flush_count t2)%nat.
Proof. unfold flush_count. rewrite List.filter_app, length_app. reflexivity. Qed.

Lemma flush_count_none (t : list call) :
  (forall c, c ∈ t -> is_flush_call c = false) -> flush_count t = 0%nat.
Proof.
  unfold flush_count. induction t as [|c t IH]; intros Hall; [reflexivity|].
  simpl. rewrite (Hall c) by apply list_elem_of_here.
  apply IH. intros c' Hc'. apply Hall. apply list_elem_of_further, Hc'.
Qed.

(** [draw_textures_flush] does not call itself. *)
Lemma flush_trace_no_flush_call (s : globals) :
  flush_count (trace_of (draw_textures_flush s)) = 0%nat.
Proof.
  destruct (Z.leb_spec (bufSize s) 0).
  - rewrite flush_empty by lia. reflexivity.
  - destruct (CFloat.gtb (lastOpacity s) (CFloat.of_int 0)) eqn:Ho.
    + rewrite flush_draws by (assumption || lia). simpl trace_of.
      change (glBlendFunc ?a ?b :: ?l) with ([glBlendFunc a b] ++ l).
      rewrite !flush_count_app.
      rewrite (flush_count_none (trace_of (bind_shader s s))).
      * reflexivity.
      * intros c Hc. apply bind_shader_calls in Hc. destruct c; simpl in *; congruence.
    + rewrite flush_skipped by (assumption || lia). reflexivity.
Qed.

(** *** The test of line 80, as a proposition *)

Lemma flush_needed_trigger s name opacity cop fc ft :
  0 <= bufSize s <= MAX_BUFFER_SIZE ->
  flush_needed s name opacity cop fc ft = true
  <-> trigger s name opacity cop fc ft.
Proof.
  intros Hb. unfold flush_needed, trigger, CFloat.neb, CInt.add.
  unfold MAX_BUFFER_SIZE in *.
  rewrite wrap_int_small by (unfold CInt.INT_MIN, CInt.INT_MAX; lia).
  rewrite !orb_true_iff, !negb_true_iff, !Z.eqb_neq, Z.leb_le.
  intuition lia.
Qed.

Lemma flush_needed_no_trigger s name opacity cop fc ft :
  0 <= bufSize s <= MAX_BUFFER_SIZE ->
  flush_needed s name opacity cop fc ft = false
  <-> ~ trigger s name opacity cop fc ft.
Proof.
  intros Hb. rewrite <- flush_needed_trigger by assumption.
  destruct (flush_needed s name opacity cop fc ft); split; congruence.
Qed.

(** *** The invariant along a run *)

Lemma flushed_ok (s : globals) : buffer_ok s -> buffer_ok (flushed s).
Proof.
  unfold buffer_ok, flushed, MAX_BUFFER_SIZE. intros [Hb Hl].
  destruct (Z.leb_spec (bufSize s) 0); simpl; split; (lia || assumption).
Qed.

Lemma item_ok (q : submit) (s : globals) :
  buffer_ok s ->
  exists s' t, item q s = Some (tt, s', t) /\ buffer_ok s'.
Proof.
  intros [Hb Hl]. unfold item.
  destruct (degenerate (q_clip q)) eqn:Hd.
  - rewrite item_degenerate by assumption. exists s, []. repeat split; assumption || lia.
  - rewrite item_run by assumption. eexists _, _. split; [reflexivity|].
    unfold buffer_ok. simpl. rewrite !length_insert. split; [|assumption].
    unfold batch_for.
    destruct (flush_needed s (q_name q) (q_opacity q) (q_composite_op q)
                (q_filter_color q) (q_filter_type q)) eqn:Hf.
    + simpl. unfold flushed, MAX_BUFFER_SIZE.
      destruct (Z.leb_spec (bufSize s) 0); simpl; lia.
    + pose proof (flush_needed_false_room _ _ _ _ _ _ Hb Hf). lia.
Qed.

Lemma exec_ok (o : op) (s : globals) :
  buffer_ok s ->
  exists s' t, exec o s = Some (tt, s', t) /\ buffer_ok s'.
Proof.
  intros Hs. destruct o as [q|]; simpl.
  - apply item_ok, Hs.
  - rewrite flush_total. eexists _, _. split; [reflexivity|].
    apply flushed_ok, Hs.
Qed.

Lemma run_ok (ops : list op) (s : globals) :
  buffer_ok s ->
  exists s' t, run ops s = Some (tt, s', t) /\ buffer_ok s'.
Proof.
  revert s. induction ops as [|o ops IH]; intros s Hs.
  - exists s, []. split; [reflexivity|assumption].
  - destruct (exec_ok o s Hs) as (s1 & t1 & He & Hs1).
    destruct (IH s1 Hs1) as (s2 & t2 & Hr & Hs2).
    exists s2, (t1 ++ t2). split; [|assumption].
    simpl. rewrite run_bind, He, Hr. reflexivity.
Qed.

(** *** The batch tuple after a submit *)

(** After a submit with a non-degenerate clip the batch carries the
    request's tuple, or the one it had, which then matches the
    request. *)
Lemma item_adopts (q : submit) (s : globals) :
  0 <= bufSize s <= MAX_BUFFER_SIZE ->
  degenerate (q_clip q) = false ->
  exists s1 t1,
    item q s = Some (tt, s1, t1)
    /\ 0 < bufSize s1 < MAX_BUFFER_SIZE
    /\ (matches s1 q \/ last_known s1 = requested q).
Proof.
  intros Hb Hd. unfold item. rewrite item_run by assumption.
  eexists _, _. split; [reflexivity|]. simpl. unfold batch_for.
  destruct (flush_needed s (q_name q) (q_opacity q) (q_composite_op q)
              (q_filter_color q) (q_filter_type q)) eqn:Hf.
  - split; [|right; reflexivity]. simpl. unfold flushed, MAX_BUFFER_SIZE.
    destruct (Z.leb_spec (bufSize s) 0); simpl; lia.
  - pose proof (flush_needed_false_room _ _ _ _ _ _ Hb Hf).
    split; [lia|left].
    unfold flush_needed, CFloat.neb in Hf.
    repeat (apply orb_false_elim in Hf; destruct Hf as [Hf ?]).
    repeat match goal with
           | Hx : negb _ = false |- _ => apply negb_false_iff in Hx
           end.
    unfold matches, last_known. simpl.
    repeat match goal with
           | Hx : (_ =? _) = true |- _ => apply Z.eqb_eq in Hx
           end.
    repeat split; assumption.
Qed.

Lemma matches_of_last_known (q : submit) (s : globals) :
  comparable q -> last_known s = requested q -> matches s q.
Proof.
  intros [Ho Hc] Hl. unfold last_known, requested in Hl.
  injection Hl as Hn Hop Hcop Hfc Hft.
  unfold matches. rewrite Hn, Hop, Hcop, Hfc, Hft. repeat split; assumption.
Qed.

Lemma matches_close (q : submit) (s : globals) : matches s q -> close_to s q.
Proof.
  intros (Hn & Ho & Hc & Hfc & Hft). unfold close_to.
  repeat split; try assumption.
  - intros o. apply float_eqb_congr, Ho.
  - intros c. apply rgba_equals_congr, Hfc.
Qed.

Lemma last_known_close (q : submit) (s : globals) :
  last_known s = requested q -> close_to s q.
Proof.
  intros Hl. unfold last_known, requested in Hl.
  injection Hl as Hn Hop Hcop Hfc Hft.
  unfold close_to. rewrite Hn, Hop, Hcop, Hfc, Hft. repeat split.
Qed.

Lemma changes_needs_flush (q1 q2 : submit) (s : globals) :
  close_to s q1 -> changes q1 q2 -> needs_flush s q2 = true.
Proof.
  intros (Hn & Ho & Hc & Hfc & Hft) Hch.
  unfold needs_flush, flush_needed, CFloat.neb.
  rewrite Ho, Hfc, <- Hn, <- Hc, Hft.
  destruct Hch as [Hx|[Hx|[Hx|[Hx|Hx]]]].
  - apply Z.eqb_neq in Hx. rewrite Hx. reflexivity.
  - rewrite Hx. simpl. rewrite !orb_true_r. reflexivity.
  - apply Z.eqb_neq in Hx. rewrite Hx. simpl. rewrite !orb_true_r. reflexivity.
  - rewrite Hx. simpl. rewrite !orb_true_r. reflexivity.
  - apply Z.eqb_neq in Hx. rewrite Hx. simpl. rewrite !orb_true_r. reflexivity.
Qed.

(** A submit whose tuple the batch matches, with room left, only
    appends. *)
Lemma item_matching (q0 q : submit) (s : globals) :
  requested q = requested q0 ->
  matches s q0 ->
  0 <= bufSize s -> bufSize s + 2 < MAX_BUFFER_SIZE ->
  exists s',
    item q s = Some (tt, s', [])
    /\ bufSize s <= bufSize s' <= bufSize s + 2
    /\ matches s' q0.
Proof.
  intros Hq (Hn & Ho & Hc & Hfc & Hft) H0 Hroom.
  unfold requested in Hq. injection Hq as Hqn Hqo Hqc Hqfc Hqft.
  unfold item. destruct (degenerate (q_clip q)) eqn:Hd.
  - rewrite item_degenerate by assumption. exists s.
    split; [reflexivity|]. split; [lia|]. repeat split; assumption.
  - assert (Hf : flush_needed s (q_name q) (q_opacity q) (q_composite_op q)
                   (q_filter_color q) (q_filter_type q) = false).
    { apply flush_needed_no_trigger; [unfold MAX_BUFFER_SIZE in *; lia|].
      unfold trigger. rewrite Hqn, Hqo, Hqc, Hqfc, Hqft, Ho, Hfc.
      intros [Hx|[Hx|[Hx|[Hx|[Hx|Hx]]]]];
        try congruence; try discriminate; lia. }
    rewrite item_run by (assumption || unfold MAX_BUFFER_SIZE in *; lia).
    unfold batch_for. rewrite Hf. eexists. split; [reflexivity|].
    simpl. split; [lia|]. repeat split; assumption.
Qed.

Lemma initial_ok : buffer_ok initial.
Proof. split; [unfold MAX_BUFFER_SIZE; simpl; lia|]. apply length_replicate. Qed.

End Proofs.

(* ------------------------------------------------------------------ *)
(** ** Properties of the batching engine *)

Section Claims.
Context `{Headers}.

(** C3.  In every state reached from the initial, empty state by any
    sequence of submits and flushes, [0 <= bufSize <= MAX_BUFFER_SIZE]:
    the sequence runs without a store outside [buffer] (a submit never
    appends past capacity), and the array keeps its
    [MAX_BUFFER_SIZE] slots. *)
Theorem bufSize_within_capacity (ops : list op) :
  exists s t,
    run ops initial = Some (tt, s, t)
    /\ 0 <= bufSize s <= MAX_BUFFER_SIZE
    /\ length (buffer s) = Z.to_nat MAX_BUFFER_SIZE.
Proof.
  destruct (run_ok ops initial initial_ok) as (s & t & Hr & Hb & Hl).
  exists s, t. auto.
Qed.

(** C4.  A submit whose clip rectangle has zero width or zero height
    returns at once: the state (buffer length, buffer contents, the
    five last-known fields) is the one it was called in, and no call
    is made, so no flush either. *)
Theorem degenerate_clip_dropped
    mv name sw sh ow oh src dest clip opacity cop fc ft (s : globals) :
  CFloat.eqb (rect_width clip) (CFloat.of_int 0) = true
  \/ CFloat.eqb (rect_height clip) (CFloat.of_int 0) = true ->
  draw_textures_item mv name sw sh ow oh src dest clip opacity cop fc ft s
  = Some (tt, s, []).
Proof.
  intros Hz. apply item_degenerate. unfold degenerate.
  apply orb_true_iff. tauto.
Qed.

(** C7.  A flush of a non-empty buffer whose batch opacity is [<= 0]
    sets [bufSize] to zero and makes no call at all: no blend function,
    no shader bind, no texture bind, no draw. *)
Theorem transparent_flush_clears_only (s : globals) :
  0 < bufSize s ->
  CFloat.leb (lastOpacity s) (CFloat.of_int 0) = true ->
  draw_textures_flush s = Some (tt, set_bufSize 0 s, []).
Proof.
  intros Hb Ho. apply flush_skipped; [assumption|].
  apply float_leb_0_not_gtb, Ho.
Qed.

(** C8.  A flush changes nothing but [bufSize], which it sets to zero:
    the five last-known fields and the buffer contents stay.  The
    last-known fields change only in a submit that took the trigger
    branch: a submit after which they differ had a non-degenerate clip,
    satisfied the test of line 80 and called the flush. *)
Theorem flush_keeps_last_known (s : globals) :
  (exists t,
      draw_textures_flush s = Some (tt, flushed s, t)
      /\ last_known (flushed s) = last_known s
      /\ buffer (flushed s) = buffer s
      /\ (0 < bufSize s -> flushed s = set_bufSize 0 s)
      /\ (bufSize s <= 0 -> flushed s = s))
  /\ (forall (q : submit) s' t,
         0 <= bufSize s <= MAX_BUFFER_SIZE ->
         item q s = Some (tt, s', t) ->
         last_known s' <> last_known s ->
         degenerate (q_clip q) = false
         /\ needs_flush s q = true
         /\ flush_count t = 1%nat
         /\ last_known s' = requested q).
Proof.
  split.
  - exists (trace_of (draw_textures_flush s)).
    split; [apply flush_total|].
    unfold flushed. destruct (Z.leb_spec (bufSize s) 0);
      repeat split; intros; try reflexivity; lia.
  - intros q s' t Hb Hrun Hne. unfold item in Hrun.
    destruct (degenerate (q_clip q)) eqn:Hd.
    { rewrite item_degenerate in Hrun by assumption.
      injection Hrun as <- <-. congruence. }
    rewrite item_run in Hrun by assumption.
    unfold needs_flush, batch_for in *.
    destruct (flush_needed s (q_name q) (q_opacity q) (q_composite_op q)
                (q_filter_color q) (q_filter_type q)) eqn:Hf;
      injection Hrun as <- <-.
    + repeat split.
      change (draw_textures_flush_call :: ?l)
        with ([draw_textures_flush_call] ++ l).
      rewrite flush_count_app, flush_trace_no_flush_call. reflexivity.
    + exfalso. apply Hne. reflexivity.
Qed.

(** C9.  A flush with an empty buffer ([bufSize <= 0]) changes no state
    and makes no call; every draw call a flush issues covers
    [3 * bufSize] vertices of a non-empty buffer; and a flush that
    directly follows a flush is such a no-op. *)
Theorem flush_empty_noop (s : globals) :
  (bufSize s <= 0 -> draw_textures_flush s = Some (tt, s, []))
  /\ (forall mode first count,
         glDrawArrays mode first count ∈ trace_of (draw_textures_flush s) ->
         0 < bufSize s /\ count = CInt.mul 3 (bufSize s))
  /\ (exists s1 t1,
         draw_textures_flush s = Some (tt, s1, t1)
         /\ draw_textures_flush s1 = Some (tt, s1, [])).
Proof.
  split; [apply flush_empty|]. split.
  - intros mode first count Hin.
    destruct (Z.leb_spec (bufSize s) 0) as [Hle|Hlt].
    { rewrite flush_empty in Hin by assumption. apply elem_of_nil in Hin. contradiction. }
    split; [assumption|].
    destruct (CFloat.gtb (lastOpacity s) (CFloat.of_int 0)) eqn:Ho.
    + rewrite flush_draws in Hin by assumption. simpl trace_of in Hin.
      apply elem_of_cons in Hin. destruct Hin as [Hin|Hin]; [discriminate|].
      apply elem_of_app in Hin. destruct Hin as [Hin|Hin].
      * apply bind_shader_calls in Hin. discriminate.
      * unfold texture_and_draw in Hin.
        repeat (apply elem_of_cons in Hin; destruct Hin as [Hin|Hin];
                [try discriminate|]).
        -- injection Hin as _ _ ->. reflexivity.
        -- apply elem_of_nil in Hin. contradiction.
    + rewrite flush_skipped in Hin by assumption.
      apply elem_of_nil in Hin. contradiction.
  - exists (flushed s), (trace_of (draw_textures_flush s)).
    split; [apply flush_total|]. apply flush_empty.
    unfold flushed. destruct (Z.leb_spec (bufSize s) 0); simpl; lia.
Qed.

(** C10.  With the single-shader toggle off and a filter kind that is
    none of [FILTER_NONE], [FILTER_LINEAR_ADD], [FILTER_MULTIPLY], a
    flush of a non-empty buffer with opacity [> 0] sets the blend
    function, binds the batch's texture and draws, and between the
    blend function and the texture set-up it makes no call: no shader
    is bound and no colour uniform is set. *)
Theorem unknown_filter_binds_no_shader (s : globals) :
  use_single_shader = false ->
  last_filter_type s <> FILTER_NONE ->
  last_filter_type s <> FILTER_LINEAR_ADD ->
  last_filter_type s <> FILTER_MULTIPLY ->
  0 < bufSize s ->
  CFloat.gtb (lastOpacity s) (CFloat.of_int 0) = true ->
  draw_textures_flush s =
  Some (tt, set_bufSize 0 s,
        [ glBlendFunc (fst (blend_switch (last_composite_op s)))
                      (snd (blend_switch (last_composite_op s)));
          glActiveTexture GL_TEXTURE0;
          glBindTexture GL_TEXTURE_2D (lastName s);
          glTexParameterf GL_TEXTURE_2D GL_TEXTURE_MIN_FILTER GL_LINEAR;
          glTexParameterf GL_TEXTURE_2D GL_TEXTURE_MAG_FILTER GL_NEAREST;
          glTexParameterf GL_TEXTURE_2D GL_TEXTURE_WRAP_S GL_CLAMP_TO_EDGE;
          glTexParameterf GL_TEXTURE_2D GL_TEXTURE_WRAP_T GL_CLAMP_TO_EDGE;
          glVertexAttribPointer vertex_coords 2 GL_FLOAT GL_FALSE 16 2;
          glVertexAttribPointer tex_coords 2 GL_FLOAT GL_FALSE 16 0;
          glDrawArrays GL_TRIANGLES 0 (CInt.mul 3 (bufSize s)) ])
  /\ (forall c, c ∈ trace_of (draw_textures_flush s) ->
                is_shader_call c = false).
Proof.
  intros Hss Hn Hl Hm Hb Ho.
  assert (Hsh : trace_of (bind_shader s s) = []).
  { unfold bind_shader. rewrite Hss.
    destruct (Z.eqb_spec (last_filter_type s) FILTER_NONE); [contradiction|].
    destruct (Z.eqb_spec (last_filter_type s) FILTER_LINEAR_ADD); [contradiction|].
    destruct (Z.eqb_spec (last_filter_type s) FILTER_MULTIPLY); [contradiction|].
    reflexivity. }
  rewrite flush_draws by assumption. rewrite Hsh. split; [reflexivity|].
  simpl. intros c Hc.
  repeat (apply elem_of_cons in Hc; destruct Hc as [->|Hc]; [reflexivity|]).
  apply elem_of_nil in Hc. contradiction.
Qed.

(** C2.  A flush of a non-empty buffer with opacity [> 0] first calls
    [glBlendFunc], once, with the pair the table of section 6 gives for
    the batch's composite operation: the row's pair when the operation
    is one of the table's, and the source-over pair [(1, 1-src-alpha)]
    when it is none of them.  (The enumerators are case labels of one
    [switch], hence pairwise different.) *)
Theorem flush_blend_factors (s : globals) :
  NoDup composite_ops ->
  0 < bufSize s ->
  CFloat.gtb (lastOpacity s) (CFloat.of_int 0) = true ->
  exists sfactor dfactor rest,
    trace_of (draw_textures_flush s) = glBlendFunc sfactor dfactor :: rest
    /\ (forall c, c ∈ rest -> is_blend_call c = false)
    /\ (forall row, row ∈ blend_table ->
                    fst row = last_composite_op s ->
                    (sfactor, dfactor) = snd row)
    /\ ((forall row, row ∈ blend_table -> fst row <> last_composite_op s) ->
        (sfactor, dfactor) = source_over_pair).
Proof.
  intros Hnd Hb Ho.
  rewrite flush_draws by assumption. simpl trace_of.
  eexists _, _, _. split; [reflexivity|]. split; [|split].
  - intros c Hc. apply elem_of_app in Hc. destruct Hc as [Hc|Hc].
    + apply bind_shader_calls in Hc. destruct c; simpl in *; congruence.
    + unfold texture_and_draw in Hc.
      repeat (apply elem_of_cons in Hc; destruct Hc as [->|Hc]; [reflexivity|]).
      apply elem_of_nil in Hc. contradiction.
  - unfold composite_ops in Hnd.
    repeat (apply NoDup_cons in Hnd; destruct Hnd as [?Hni Hnd]).
    repeat match goal with
           | Hx : _ ∉ _ :: _ |- _ =>
               apply not_elem_of_cons in Hx; destruct Hx as [?Hne Hx]
           end.
    intros row Hrow Hkey. rewrite <- surjective_pairing.
    unfold blend_table in Hrow.
    repeat (apply elem_of_cons in Hrow; destruct Hrow as [->|Hrow];
            [ simpl in Hkey; rewrite <- Hkey; unfold blend_switch;
              repeat match goal with
                     | |- context [?a =? ?b] =>
                         destruct (Z.eqb_spec a b); try congruence
                     end;
              reflexivity |]).
    apply elem_of_nil in Hrow. contradiction.
  - intros Hnone. rewrite <- surjective_pairing. unfold blend_switch.
    repeat match goal with
           | |- context [?a =? ?b] =>
               destruct (Z.eqb_spec a b) as [Heq|?];
               [ exfalso; eapply (Hnone (b, _));
                 [ unfold blend_table;
                   repeat (first [ apply list_elem_of_here
                                 | apply list_elem_of_further ])
                 | simpl; congruence ]
               | ]
           end.
    reflexivity.
Qed.

(** C5.  A submit that appends writes the two slots
    [bufSize-2] and [bufSize-1] (the counter read after the call) and no
    other; with [sMin = src.x / src_width], [tMin = src.y / src_height],
    [sMax = (src.x + src.width) / src_width] and
    [tMax = (src.y + src.height) / src_height], computed in [float], the
    texture coordinates of the first triangle are
    [(sMin,tMax), (sMax,tMax), (sMin,tMin)] and those of the second
    [(sMax,tMax), (sMax,tMin), (sMin,tMin)].  For the source rectangle
    (10,20,30,40) on a 100x200 texture the four scalars are 0.1, 0.1,
    0.4 and 0.3 to four decimals. *)
Theorem texture_coordinates :
  (forall mv name sw sh ow oh src dest clip opacity cop fc ft (s : globals),
      degenerate clip = false ->
      buffer_ok s ->
      let sMin := CFloat.div (rect_x src) (CFloat.of_int sw) in
      let tMin := CFloat.div (rect_y src) (CFloat.of_int sh) in
      let sMax := CFloat.div (CFloat.add (rect_x src) (rect_width src))
                             (CFloat.of_int sw) in
      let tMax := CFloat.div (CFloat.add (rect_y src) (rect_height src))
                             (CFloat.of_int sh) in
      exists s' t o o2,
        draw_textures_item mv name sw sh ow oh src dest clip opacity cop fc ft s
        = Some (tt, s', t)
        /\ buffer s' !! Z.to_nat (bufSize s' - 2) = Some o
        /\ buffer s' !! Z.to_nat (bufSize s' - 1) = Some o2
        /\ tex_coords_of o = [(sMin, tMax); (sMax, tMax); (sMin, tMin)]
        /\ tex_coords_of o2 = [(sMax, tMax); (sMax, tMin); (sMin, tMin)]
        /\ (forall i : nat,
               i <> Z.to_nat (bufSize s' - 2) ->
               i <> Z.to_nat (bufSize s' - 1) ->
               buffer s' !! i = buffer s !! i))
  /\ (let src := Rect2d (CFloat.of_int 10) (CFloat.of_int 20)
                        (CFloat.of_int 30) (CFloat.of_int 40) in
      four_decimals (CFloat.div (rect_x src) (CFloat.of_int 100)) 0.1
      /\ four_decimals (CFloat.div (rect_y src) (CFloat.of_int 200)) 0.1
      /\ four_decimals (CFloat.div (CFloat.add (rect_x src) (rect_width src))
                                   (CFloat.of_int 100)) 0.4
      /\ four_decimals (CFloat.div (CFloat.add (rect_y src) (rect_height src))
                                   (CFloat.of_int 200)) 0.3).
Proof.
  split.
  - intros mv name sw sh ow oh src dest clip opacity cop fc ft s Hd [Hb Hl].
    intros sMin tMin sMax tMax.
    rewrite item_run by assumption.
    set (b := batch_for s name opacity cop fc ft).
    assert (Hroom : 0 <= bufSize b /\ bufSize b + 2 <= MAX_BUFFER_SIZE).
    { subst b. unfold batch_for.
      destruct (flush_needed s name opacity cop fc ft) eqn:Hf.
      - simpl. unfold flushed, MAX_BUFFER_SIZE.
        destruct (Z.leb_spec (bufSize s) 0); simpl; lia.
      - pose proof (flush_needed_false_room _ _ _ _ _ _ Hb Hf). lia. }
    unfold MAX_BUFFER_SIZE in *.
    eexists _, _, (fst (triangles mv sw sh src dest)),
      (snd (triangles mv sw sh src dest)).
    split; [reflexivity|]. simpl bufSize. simpl buffer.
    replace (bufSize b + 2 - 2) with (bufSize b) by lia.
    replace (bufSize b + 2 - 1) with (bufSize b + 1) by lia.
    repeat split.
    + rewrite list_lookup_insert_ne by lia.
      apply list_lookup_insert_eq. lia.
    + apply list_lookup_insert_eq. rewrite length_insert. lia.
    + intros i Hi Hi2. rewrite !list_lookup_insert_ne by congruence.
      reflexivity.
  - vm_compute. repeat split.
Qed.

(** C1 (amended).  For a submit with a non-degenerate clip rectangle,
    in a state whose counter is within the buffer, [draw_textures_flush]
    is called, once and before the quad is appended, if and only if the
    texture handle differs from the batched one, or
    [bufSize + 2 >= MAX_BUFFER_SIZE], or the opacity differs under the
    IEEE comparison of C's [!=] (the two zeros are equal, a NaN differs
    from everything, itself included), or the composite operation
    differs, or the filter colour differs in a component, or the filter
    kind differs.  On trigger the flush runs on the previous state, the
    five last-known fields then take the request's values and the quad
    is the first of the emptied buffer; otherwise no call is made, the
    five fields stay and the quad follows the batched ones. *)
Theorem item_flush_trigger
    mv name sw sh ow oh src dest clip opacity cop fc ft (s : globals) :
  degenerate clip = false ->
  0 <= bufSize s <= MAX_BUFFER_SIZE ->
  exists s' t,
    draw_textures_item mv name sw sh ow oh src dest clip opacity cop fc ft s
    = Some (tt, s', t)
    /\ (draw_textures_flush_call ∈ t <-> trigger s name opacity cop fc ft)
    /\ (trigger s name opacity cop fc ft ->
        t = draw_textures_flush_call :: trace_of (draw_textures_flush s)
        /\ flush_count t = 1%nat
        /\ last_known s' = (name, opacity, cop, fc, ft)
        /\ bufSize s' = 2)
    /\ (~ trigger s name opacity cop fc ft ->
        t = []
        /\ last_known s' = last_known s
        /\ bufSize s' = bufSize s + 2).
Proof.
  intros Hd Hb. rewrite item_run by assumption.
  eexists _, _. split; [reflexivity|].
  unfold batch_for.
  destruct (flush_needed s name opacity cop fc ft) eqn:Hf.
  - assert (Ht : trigger s name opacity cop fc ft)
      by (apply flush_needed_trigger; assumption).
    split; [|split].
    + split; [intros _; exact Ht | intros _; apply list_elem_of_here].
    + intros _. repeat split.
      * change (draw_textures_flush_call :: ?l)
          with ([draw_textures_flush_call] ++ l).
        rewrite flush_count_app, flush_trace_no_flush_call. reflexivity.
      * simpl. unfold flushed.
        destruct (Z.leb_spec (bufSize s) 0); simpl; lia.
    + intros Hn. contradiction.
  - assert (Ht : ~ trigger s name opacity cop fc ft)
      by (apply flush_needed_no_trigger; assumption).
    split; [|split].
    + split; [intros Hin; apply elem_of_nil in Hin; contradiction
             | intros Hy; contradiction].
    + intros Hy. contradiction.
    + intros _. repeat split.
Qed.

(** C6 (amended).  After a submit with a non-degenerate clip and no NaN
    in its tuple, submits carrying the identical state tuple make no call
    at all, so no flush, as long as the buffer keeps room for each of
    them ([bufSize + 2 < MAX_BUFFER_SIZE] before it); and when a field of
    the tuple changes (under C's comparisons) between two consecutive
    submits with non-degenerate clips, the second one calls the flush
    exactly once. *)
Theorem same_tuple_no_flush :
  (forall (q0 : submit) (reqs : list submit) (s : globals),
      0 <= bufSize s <= MAX_BUFFER_SIZE ->
      degenerate (q_clip q0) = false ->
      comparable q0 ->
      Forall (fun q => requested q = requested q0) reqs ->
      exists s1 t1,
        item q0 s = Some (tt, s1, t1)
        /\ (bufSize s1 + 2 * Z.of_nat (length reqs) < MAX_BUFFER_SIZE ->
            exists s2, run (map Item reqs) s1 = Some (tt, s2, [])))
  /\ (forall (q1 q2 : submit) (s : globals),
        0 <= bufSize s <= MAX_BUFFER_SIZE ->
        degenerate (q_clip q1) = false ->
        degenerate (q_clip q2) = false ->
        changes q1 q2 ->
        exists s1 t1 s2 t2,
          item q1 s = Some (tt, s1, t1)
          /\ item q2 s1 = Some (tt, s2, t2)
          /\ flush_count t2 = 1%nat).
Proof.
  split.
  - intros q0 reqs s Hb Hd Hcmp Hall.
    destruct (item_adopts q0 s Hb Hd) as (s1 & t1 & Hrun & Hb1 & Hm).
    exists s1, t1. split; [assumption|]. intros Hroom.
    assert (Hm1 : matches s1 q0).
    { destruct Hm as [Hm|Hm]; [assumption|].
      apply matches_of_last_known; assumption. }
    clear Hrun Hm. revert s1 Hb1 Hroom Hm1.
    induction Hall as [|q reqs Hq Hall IH]; intros s1 Hb1 Hroom Hm1.
    + exists s1. reflexivity.
    + rewrite length_cons, Nat2Z.inj_succ in Hroom.
      destruct (item_matching q0 q s1 Hq Hm1) as (s2 & Hrun & Hb2 & Hm2);
        [lia|lia|].
      destruct (IH s2 ltac:(lia) ltac:(lia) Hm2) as (s3 & Hrest).
      exists s3. simpl. rewrite run_bind, Hrun, Hrest. reflexivity.
  - intros q1 q2 s Hb Hd1 Hd2 Hch.
    destruct (item_adopts q1 s Hb Hd1) as (s1 & t1 & Hrun & Hb1 & Hm).
    assert (Hf : needs_flush s1 q2 = true).
    { apply (changes_needs_flush q1 q2 s1); [|assumption].
      destruct Hm as [Hm|Hm]; [apply matches_close, Hm|].
      apply last_known_close. assumption. }
    exists s1, t1. unfold item at 2. rewrite item_run by (assumption || lia).
    unfold needs_flush in Hf. rewrite Hf.
    eexists _, _. split; [assumption|]. split; [reflexivity|].
    change (draw_textures_flush_call :: ?l)
      with ([draw_textures_flush_call] ++ l).
    rewrite flush_count_app, flush_trace_no_flush_call. reflexivity.
Qed.

End Claims.

(* ------------------------------------------------------------------ *)
(** ** The properties at the sample inputs *)

Lemma sample_ops_distinct : NoDup (@composite_ops sample_headers).
Proof. apply (bool_decide_unpack _). vm_compute. exact I. Defined.

Lemma degenerate_clip_dropped_witness :
  @draw_textures_item sample_headers (f32 0, f32 0) 8 100 200 100 200
    (sample_rect 10 20 30 40) (sample_rect 0 0 30 40) empty_clip
    (f32 0) 1341 black 1 one_quad
  = Some (tt, one_quad, []).
Proof.
  apply (@degenerate_clip_dropped sample_headers).
  left. vm_compute. reflexivity.
Defined.

Lemma transparent_flush_clears_only_witness :
  @draw_textures_flush sample_headers one_transparent_quad
  = Some (tt, set_bufSize 0 one_transparent_quad, []).
Proof.
  apply (@transparent_flush_clears_only sample_headers).
  - vm_compute. reflexivity.
  - vm_compute. reflexivity.
Defined.

Lemma flush_keeps_last_known_witness :
  @needs_flush sample_headers initial opaque_submit = true
  /\ flush_count [draw_textures_flush_call] = 1%nat
  /\ last_known one_quad = requested opaque_submit.
Proof.
  destruct (proj2 (@flush_keeps_last_known sample_headers initial)
              opaque_submit one_quad [draw_textures_flush_call])
    as (_ & Hn & Hc & Hl).
  - vm_compute. split; discriminate.
  - vm_compute. reflexivity.
  - vm_compute. discriminate.
  - auto.
Defined.

Lemma flush_empty_noop_witness :
  @draw_textures_flush sample_headers initial = Some (tt, initial, []).
Proof.
  apply (proj1 (@flush_empty_noop sample_headers initial)).
  vm_compute. discriminate.
Defined.

Lemma unknown_filter_binds_no_shader_witness :
  @draw_textures_flush sample_headers one_quad_unknown_filter
  = Some (tt, set_bufSize 0 one_quad_unknown_filter,
          [ glBlendFunc GL_ONE GL_ONE_MINUS_SRC_ALPHA;
            glActiveTexture GL_TEXTURE0;
            glBindTexture GL_TEXTURE_2D 7;
            glTexParameterf GL_TEXTURE_2D GL_TEXTURE_MIN_FILTER GL_LINEAR;
            glTexParameterf GL_TEXTURE_2D GL_TEXTURE_MAG_FILTER GL_NEAREST;
            glTexParameterf GL_TEXTURE_2D GL_TEXTURE_WRAP_S GL_CLAMP_TO_EDGE;
            glTexParameterf GL_TEXTURE_2D GL_TEXTURE_WRAP_T GL_CLAMP_TO_EDGE;
            glVertexAttribPointer vertex_coords 2 GL_FLOAT GL_FALSE 16 2;
            glVertexAttribPointer tex_coords 2 GL_FLOAT GL_FALSE 16 0;
            glDrawArrays GL_TRIANGLES 0 6 ]).
Proof.
  refine (proj1 (@unknown_filter_binds_no_shader sample_headers
                   one_quad_unknown_filter _ _ _ _ _ _));
    vm_compute; (reflexivity || discriminate).
Defined.

Lemma flush_blend_factors_witness :
  exists rest,
    trace_of (@draw_textures_flush sample_headers one_quad)
    = glBlendFunc GL_ONE GL_ONE_MINUS_SRC_ALPHA :: rest.
Proof.
  destruct (@flush_blend_factors sample_headers one_quad)
    as (sfactor & dfactor & rest & Ht & _ & Hrow & _).
  - exact sample_ops_distinct.
  - vm_compute. reflexivity.
  - vm_compute. reflexivity.
  - assert (Hp : (sfactor, dfactor) = (GL_ONE, GL_ONE_MINUS_SRC_ALPHA)).
    { apply (Hrow (1340, (GL_ONE, GL_ONE_MINUS_SRC_ALPHA))).
      + unfold blend_table. simpl.
        do 3 apply list_elem_of_further. apply list_elem_of_here.
      + vm_compute. reflexivity. }
    injection Hp as -> ->. exists rest. exact Ht.
Defined.

Lemma texture_coordinates_witness :
  exists s' t o o2,
    @item sample_headers opaque_submit one_quad = Some (tt, s', t)
    /\ buffer s' !! 2%nat = Some o
    /\ buffer s' !! 3%nat = Some o2
    /\ tex_coords_of o
       = [ (CFloat.div (f32 10) (f32 100), CFloat.div (f32 60) (f32 200));
           (CFloat.div (f32 40) (f32 100), CFloat.div (f32 60) (f32 200));
           (CFloat.div (f32 10) (f32 100), CFloat.div (f32 20) (f32 200)) ]
    /\ tex_coords_of o2
       = [ (CFloat.div (f32 40) (f32 100), CFloat.div (f32 60) (f32 200));
           (CFloat.div (f32 40) (f32 100), CFloat.div (f32 20) (f32 200));
           (CFloat.div (f32 10) (f32 100), CFloat.div (f32 20) (f32 200)) ].
Proof.
  destruct (proj1 (@texture_coordinates sample_headers)
              (f32 0, f32 0) 7 100 200 100 200
              (sample_rect 10 20 30 40) (sample_rect 0 0 30 40)
              (sample_rect 0 0 320 480) (f32 1) 1340 black 0 one_quad)
    as (s' & t & o & o2 & Hrun & Ho & Ho2 & Hc & Hc2 & _).
  - vm_compute. reflexivity.
  - split; [vm_compute; split; discriminate | vm_compute; reflexivity].
  - exists s', t, o, o2.
    assert (Hs : bufSize s' = 4).
    { change (@item sample_headers opaque_submit one_quad = Some (tt, s', t)) in Hrun.
      apply (f_equal state_of) in Hrun. vm_compute in Hrun.
      injection Hrun as <-. reflexivity. }
    rewrite Hs in Ho, Ho2.
    repeat split; assumption.
Defined.

Lemma item_flush_trigger_witness :
  exists s' t,
    @item sample_headers other_texture_submit one_quad = Some (tt, s', t)
    /\ t = draw_textures_flush_call
           :: trace_of (@draw_textures_flush sample_headers one_quad)
    /\ flush_count t = 1%nat
    /\ last_known s' = requested other_texture_submit
    /\ bufSize s' = 2.
Proof.
  destruct (@item_flush_trigger sample_headers
              (f32 0, f32 0) 8 100 200 100 200
              (sample_rect 10 20 30 40) (sample_rect 0 0 30 40)
              (sample_rect 0 0 320 480) (f32 1) 1340 black 0 one_quad)
    as (s' & t & Hrun & _ & Hyes & _).
  - vm_compute. reflexivity.
  - vm_compute. split; discriminate.
  - exists s', t. split; [exact Hrun|].
    apply Hyes. left. vm_compute. discriminate.
Defined.

Lemma same_tuple_no_flush_witness :
  (exists s1 t1 s2,
      @item sample_headers opaque_submit initial = Some (tt, s1, t1)
      /\ @run sample_headers
           (map Item [opaque_submit; opaque_submit; opaque_submit]) s1
         = Some (tt, s2, []))
  /\ (exists s1 t1 s2 t2,
         @item sample_headers opaque_submit initial = Some (tt, s1, t1)
         /\ @item sample_headers other_texture_submit s1 = Some (tt, s2, t2)
         /\ flush_count t2 = 1%nat).
Proof.
  split.
  - destruct (proj1 (@same_tuple_no_flush sample_headers) opaque_submit
                [opaque_submit; opaque_submit; opaque_submit] initial)
      as (s1 & t1 & Hrun & Hrest).
    + vm_compute. split; discriminate.
    + vm_compute. reflexivity.
    + split; vm_compute; reflexivity.
    + repeat constructor.
    + destruct Hrest as (s2 & Hrest).
      * assert (Hs : bufSize s1 = 2).
        { apply (f_equal state_of) in Hrun. vm_compute in Hrun.
          injection Hrun as <-. reflexivity. }
        rewrite Hs. vm_compute. reflexivity.
      * exists s1, t1, s2. split; assumption.
  - apply (proj2 (@same_tuple_no_flush sample_headers)).
    + vm_compute. split; discriminate.
    + vm_compute. reflexivity.
    + vm_compute. reflexivity.
    + left. vm_compute. discriminate.
Defined.

(* ------------------------------------------------------------------ *)
(** ** Where the trigger is not what a bit-for-bit or capacity-free
       reading says *)

(** C1, as worded with a bit-exact opacity comparison, fails on the code:
    one quad is batched at opacity [+0.0f]; the next submit differs from it
    in nothing but the opacity [-0.0f], whose bit pattern is another one,
    and [lastOpacity != opacity] is false, so no flush is called. *)
Lemma bit_exact_opacity_counterexample :
  state_of (@run sample_headers [Item transparent_submit] initial)
  = Some one_transparent_quad
  /\ degenerate (q_clip neg_zero_submit) = false
  /\ ~ (draw_textures_flush_call
          ∈ trace_of (@item sample_headers neg_zero_submit one_transparent_quad)
        <-> trigger_bit_exact one_transparent_quad
              (q_name neg_zero_submit) (q_opacity neg_zero_submit)
              (q_composite_op neg_zero_submit) (q_filter_color neg_zero_submit)
              (q_filter_type neg_zero_submit)).
Proof.
  split; [vm_compute; reflexivity|]. split; [vm_compute; reflexivity|].
  intros [_ Hflush].
  assert (Hin : draw_textures_flush_call
                  ∈ trace_of (@item sample_headers neg_zero_submit
                                one_transparent_quad)).
  { apply Hflush. right. right. left.
    unfold CFloat.same_bits. vm_compute. discriminate. }
  vm_compute in Hin. apply elem_of_nil in Hin. exact Hin.
Qed.

(** C6, as worded, fails on the code: 512 submits with one and the same
    tuple from the initial state; the first leaves one quad, and among the
    511 that follow the last one finds [bufSize + 2 >= MAX_BUFFER_SIZE] and
    flushes the 1022 slots batched so far. *)
Lemma full_buffer_counterexample :
  state_of (@item sample_headers opaque_submit initial) = Some one_quad
  /\ flush_count
       (trace_of (@run sample_headers
                    (map Item (replicate 511 opaque_submit)) one_quad))
     = 1%nat
  /\ glDrawArrays GL_TRIANGLES 0 3066
       ∈ trace_of (@run sample_headers
                     (map Item (replicate 511 opaque_submit)) one_quad).
Proof.
  split; [vm_compute; reflexivity|]. split; [vm_compute; reflexivity|].
  vm_compute. repeat (first [ apply list_elem_of_here | apply list_elem_of_further ]).
Qed.

(* ------------------------------------------------------------------ *)
(** ** Further properties: the shader paths of a flush *)

Section ShaderPaths.
Context `{Headers}.

(** X1.  A flush that draws, with the single-shader toggle on: the primary
    shader with draw colour (opacity x4), whatever the batch's filter kind
    and filter colour are. *)
Theorem single_shader_ignores_filter (s : globals) :
  use_single_shader = true ->
  0 < bufSize s ->
  CFloat.gtb (lastOpacity s) (CFloat.of_int 0) = true ->
  draw_textures_flush s =
  Some (tt, set_bufSize 0 s,
        glBlendFunc (fst (blend_switch (last_composite_op s)))
                    (snd (blend_switch (last_composite_op s)))
        :: tealeaf_shaders_bind PRIMARY_SHADER
        :: glUniform4f draw_color (lastOpacity s) (lastOpacity s)
                       (lastOpacity s) (lastOpacity s)
        :: texture_and_draw s).
Proof.
  intros Hss Hb Ho. rewrite flush_draws by assumption.
  unfold bind_shader. rewrite Hss. reflexivity.
Qed.

(** X2.  A flush that draws a batch without filter (toggle off): the primary
    shader with draw colour (opacity x4). *)
Theorem no_filter_primary_shader (s : globals) :
  use_single_shader = false ->
  last_filter_type s = FILTER_NONE ->
  0 < bufSize s ->
  CFloat.gtb (lastOpacity s) (CFloat.of_int 0) = true ->
  draw_textures_flush s =
  Some (tt, set_bufSize 0 s,
        glBlendFunc (fst (blend_switch (last_composite_op s)))
                    (snd (blend_switch (last_composite_op s)))
        :: tealeaf_shaders_bind PRIMARY_SHADER
        :: glUniform4f draw_color (lastOpacity s) (lastOpacity s)
                       (lastOpacity s) (lastOpacity s)
        :: texture_and_draw s).
Proof.
  intros Hss Hft Hb Ho. rewrite flush_draws by assumption.
  unfold bind_shader. rewrite Hss, Hft, Z.eqb_refl. reflexivity.
Qed.

(** X3.  A flush that draws a batch under the additive filter (toggle off):
    the linear-add shader, add colour (r*a, g*a, b*a, 0) of the filter
    colour, then draw colour (opacity x4). *)
Theorem linear_add_shader_uniforms (s : globals) :
  use_single_shader = false ->
  FILTER_LINEAR_ADD <> FILTER_NONE ->
  last_filter_type s = FILTER_LINEAR_ADD ->
  0 < bufSize s ->
  CFloat.gtb (lastOpacity s) (CFloat.of_int 0) = true ->
  draw_textures_flush s =
  Some (tt, set_bufSize 0 s,
        glBlendFunc (fst (blend_switch (last_composite_op s)))
                    (snd (blend_switch (last_composite_op s)))
        :: tealeaf_shaders_bind LINEAR_ADD_SHADER
        :: glUniform4f add_color
             (CFloat.mul (rgba_r (last_filter_color s)) (rgba_a (last_filter_color s)))
             (CFloat.mul (rgba_g (last_filter_color s)) (rgba_a (last_filter_color s)))
             (CFloat.mul (rgba_b (last_filter_color s)) (rgba_a (last_filter_color s)))
             (CFloat.of_int 0)
        :: glUniform4f draw_color (lastOpacity s) (lastOpacity s)
                       (lastOpacity s) (lastOpacity s)
        :: texture_and_draw s).
Proof.
  intros Hss Hne Hft Hb Ho. rewrite flush_draws by assumption.
  unfold bind_shader. rewrite Hss, Hft, Z.eqb_refl.
  destruct (Z.eqb_spec FILTER_LINEAR_ADD FILTER_NONE); [contradiction|].
  reflexivity.
Qed.

(** X4.  A flush that draws a batch under the multiplicative filter (toggle
    off): the primary shader with draw colour
    (r*opacity, g*opacity, b*opacity, opacity). *)
Theorem multiply_filter_draw_color (s : globals) :
  use_single_shader = false ->
  FILTER_MULTIPLY <> FILTER_NONE ->
  FILTER_MULTIPLY <> FILTER_LINEAR_ADD ->
  last_filter_type s = FILTER_MULTIPLY ->
  0 < bufSize s ->
  CFloat.gtb (lastOpacity s) (CFloat.of_int 0) = true ->
  draw_textures_flush s =
  Some (tt, set_bufSize 0 s,
        glBlendFunc (fst (blend_switch (last_composite_op s)))
                    (snd (blend_switch (last_composite_op s)))
        :: tealeaf_shaders_bind PRIMARY_SHADER
        :: glUniform4f draw_color
             (CFloat.mul (rgba_r (last_filter_color s)) (lastOpacity s))
             (CFloat.mul (rgba_g (last_filter_color s)) (lastOpacity s))
             (CFloat.mul (rgba_b (last_filter_color s)) (lastOpacity s))
             (lastOpacity s)
        :: texture_and_draw s).
Proof.
  intros Hss Hn Hl Hft Hb Ho. rewrite flush_draws by assumption.
  unfold bind_shader. rewrite Hss, Hft, Z.eqb_refl.
  destruct (Z.eqb_spec FILTER_MULTIPLY FILTER_NONE); [contradiction|].
  destruct (Z.eqb_spec FILTER_MULTIPLY FILTER_LINEAR_ADD); [contradiction|].
  reflexivity.
Qed.

(** *** Calls of a flush, whatever the shader path *)

Lemma shader_calls_not_draw (t : list call) :
  (forall c, c ∈ t -> is_shader_call c = true) ->
  List.filter is_draw_call t = [] /\ List.filter is_bind_texture t = []
  /\ drawn_vertices t = 0.
Proof.
  induction t as [|c t IH]; intros Hall; [repeat split|].
  destruct IH as (Hd & Hb & Hv).
  { intros c' Hc'. apply Hall, list_elem_of_further, Hc'. }
  pose proof (Hall c (list_elem_of_here _ _)) as Hc.
  destruct c; simpl in Hc; try discriminate; simpl; auto.
Qed.


Lemma mul3_in_range (n : Z) :
  0 <= n <= MAX_BUFFER_SIZE -> CInt.mul 3 n = 3 * n.
Proof.
  unfold MAX_BUFFER_SIZE, CInt.mul. intros Hn.
  apply wrap_int_small. unfold CInt.INT_MIN, CInt.INT_MAX. lia.
Qed.

(** X5.  A flush that draws issues exactly one draw call, as its last call,
    covering [3 * bufSize] vertices as a triangle list, and binds exactly
    one texture, the batch's. *)
Theorem flush_draws_once (s : globals) :
  0 < bufSize s <= MAX_BUFFER_SIZE ->
  CFloat.gtb (lastOpacity s) (CFloat.of_int 0) = true ->
  exists t,
    draw_textures_flush s = Some (tt, set_bufSize 0 s, t)
    /\ last t = Some (glDrawArrays GL_TRIANGLES 0 (3 * bufSize s))
    /\ List.filter is_draw_call t = [glDrawArrays GL_TRIANGLES 0 (3 * bufSize s)]
    /\ List.filter is_bind_texture t = [glBindTexture GL_TEXTURE_2D (lastName s)].
Proof.
  intros Hb Ho. rewrite flush_draws by (assumption || lia).
  eexists. split; [reflexivity|].
  pose proof (shader_calls_not_draw (trace_of (bind_shader s s))
                (bind_shader_calls s s)) as (Hd & Hbt & _).
  rewrite <- (mul3_in_range (bufSize s)) by lia.
  split; [|split].
  - change (glBlendFunc ?a ?b :: ?l) with ([glBlendFunc a b] ++ l).
    rewrite !last_app. reflexivity.
  - simpl. rewrite List.filter_app, Hd. reflexivity.
  - simpl. rewrite List.filter_app, Hbt. reflexivity.
Qed.

End ShaderPaths.

(* ------------------------------------------------------------------ *)
(** ** Further properties: whole sequences of submits and flushes *)

Section Runs.
Context `{Headers}.

(** *** What the calls of a flush look like *)

Lemma flush_trace_cases (s : globals) :
  trace_of (draw_textures_flush s) = []
  \/ (0 < bufSize s
      /\ CFloat.gtb (lastOpacity s) (CFloat.of_int 0) = true
      /\ trace_of (draw_textures_flush s)
         = glBlendFunc (fst (blend_switch (last_composite_op s)))
                       (snd (blend_switch (last_composite_op s)))
           :: trace_of (bind_shader s s) ++ texture_and_draw s).
Proof.
  destruct (Z.leb_spec (bufSize s) 0).
  - left. rewrite flush_empty by lia. reflexivity.
  - destruct (CFloat.gtb (lastOpacity s) (CFloat.of_int 0)) eqn:Ho.
    + right. rewrite flush_draws by assumption. auto.
    + left. rewrite flush_skipped by assumption. reflexivity.
Qed.

Lemma flush_draw_calls (s : globals) mode first count :
  glDrawArrays mode first count ∈ trace_of (draw_textures_flush s) ->
  0 < bufSize s /\ mode = GL_TRIANGLES /\ first = 0
  /\ count = CInt.mul 3 (bufSize s).
Proof.
  destruct (flush_trace_cases s) as [->|(Hb & _ & ->)]; intros Hin.
  - apply elem_of_nil in Hin. contradiction.
  - apply elem_of_cons in Hin. destruct Hin as [Hin|Hin]; [discriminate|].
    apply elem_of_app in Hin. destruct Hin as [Hin|Hin].
    + apply bind_shader_calls in Hin. discriminate.
    + unfold texture_and_draw in Hin.
      repeat (apply elem_of_cons in Hin; destruct Hin as [Hin|Hin];
              [try discriminate|]).
      * injection Hin as -> -> ->. auto.
      * apply elem_of_nil in Hin. contradiction.
Qed.

Lemma flush_bind_texture_calls (s : globals) target name :
  glBindTexture target name ∈ trace_of (draw_textures_flush s) ->
  0 < bufSize s /\ target = GL_TEXTURE_2D /\ name = lastName s.
Proof.
  destruct (flush_trace_cases s) as [->|(Hb & _ & ->)]; intros Hin.
  - apply elem_of_nil in Hin. contradiction.
  - apply elem_of_cons in Hin. destruct Hin as [Hin|Hin]; [discriminate|].
    apply elem_of_app in Hin. destruct Hin as [Hin|Hin].
    + apply bind_shader_calls in Hin. discriminate.
    + unfold texture_and_draw in Hin.
      repeat (apply elem_of_cons in Hin; destruct Hin as [Hin|Hin];
              [try discriminate|]).
      * injection Hin as -> ->. auto.
      * apply elem_of_nil in Hin. contradiction.
Qed.

Lemma flush_draw_color_calls (s : globals) v0 v1 v2 v3 :
  glUniform4f draw_color v0 v1 v2 v3 ∈ trace_of (draw_textures_flush s) ->
  v3 = lastOpacity s
  /\ CFloat.gtb (lastOpacity s) (CFloat.of_int 0) = true.
Proof.
  destruct (flush_trace_cases s) as [->|(Hb & Ho & ->)]; intros Hin.
  - apply elem_of_nil in Hin. contradiction.
  - split; [|assumption].
    apply elem_of_cons in Hin. destruct Hin as [Hin|Hin]; [discriminate|].
    apply elem_of_app in Hin. destruct Hin as [Hin|Hin].
    + revert Hin. unfold bind_shader.
      destruct use_single_shader;
        [|destruct (last_filter_type s =? FILTER_NONE);
          [|destruct (last_filter_type s =? FILTER_LINEAR_ADD);
            [|destruct (last_filter_type s =? FILTER_MULTIPLY)]]];
        simpl; intros Hin;
        repeat (apply elem_of_cons in Hin; destruct Hin as [Hin|Hin];
                [try discriminate; injection Hin as _ _ _ ->; reflexivity|]);
        apply elem_of_nil in Hin; contradiction.
    + unfold texture_and_draw in Hin.
      repeat (apply elem_of_cons in Hin; destruct Hin as [Hin|Hin];
              [discriminate|]).
      apply elem_of_nil in Hin. contradiction.
Qed.

(** A submit makes no call, or calls the flush and nothing else. *)
Lemma item_trace (q : submit) (s : globals) :
  0 <= bufSize s <= MAX_BUFFER_SIZE ->
  exists s' t,
    item q s = Some (tt, s', t)
    /\ (t = [] \/ t = draw_textures_flush_call :: trace_of (draw_textures_flush s)).
Proof.
  intros Hb. unfold item. destruct (degenerate (q_clip q)) eqn:Hd.
  - rewrite item_degenerate by assumption. eauto.
  - rewrite item_run by assumption. eexists _, _. split; [reflexivity|].
    destruct (flush_needed s (q_name q) (q_opacity q) (q_composite_op q)
                (q_filter_color q) (q_filter_type q)); auto.
Qed.

(** Every call of a run satisfies what the calls of each flush satisfy,
    given an invariant [I] the submits with [Q] and the flushes keep. *)
Lemma run_calls (I : globals -> Prop) (Q : submit -> Prop) (P : call -> Prop) :
  (forall s, I s -> 0 <= bufSize s <= MAX_BUFFER_SIZE) ->
  (forall s, I s -> I (flushed s)) ->
  (forall q s s' t, Q q -> I s -> item q s = Some (tt, s', t) -> I s') ->
  P draw_textures_flush_call ->
  (forall s c, I s -> c ∈ trace_of (draw_textures_flush s) -> P c) ->
  forall ops s,
    Forall (fun o => match o with Item q => Q q | Flush => True end) ops ->
    I s ->
    exists s' t,
      run ops s = Some (tt, s', t) /\ I s' /\ forall c, c ∈ t -> P c.
Proof.
  intros Hrange Hflush Hitem Hmark Hcalls.
  induction ops as [|o ops IH]; intros s Hall Hs.
  - exists s, []. split; [reflexivity|]. split; [assumption|].
    intros c Hc. apply elem_of_nil in Hc. contradiction.
  - apply Forall_cons in Hall. destruct Hall as [Ho Hall].
    assert (Hstep : exists s1 t1,
               exec o s = Some (tt, s1, t1) /\ I s1
               /\ forall c, c ∈ t1 -> P c).
    { destruct o as [q|]; simpl.
      - destruct (item_trace q s (Hrange s Hs)) as (s1 & t1 & Hrun & Ht).
        exists s1, t1. split; [assumption|].
        split; [apply (Hitem q s s1 t1); assumption|].
        intros c Hc. destruct Ht as [->| ->].
        + apply elem_of_nil in Hc. contradiction.
        + apply elem_of_cons in Hc. destruct Hc as [->|Hc]; [assumption|].
          apply (Hcalls s); assumption.
      - rewrite flush_total. eexists _, _. split; [reflexivity|].
        split; [apply Hflush, Hs|]. intros c Hc. apply (Hcalls s); assumption. }
    destruct Hstep as (s1 & t1 & He & Hs1 & Ht1).
    destruct (IH s1 Hall Hs1) as (s2 & t2 & Hr & Hs2 & Ht2).
    exists s2, (t1 ++ t2). split; [|split; [assumption|]].
    + simpl. rewrite run_bind, He, Hr. reflexivity.
    + intros c Hc. apply elem_of_app in Hc. destruct Hc; auto.
Qed.

Lemma Forall_trivial_ops (ops : list op) :
  Forall (fun o => match o with Item _ => True | Flush => True end) ops.
Proof. apply Forall_forall. intros [q|] _; exact I. Qed.

(** *** The counter stays even and two slots short of the capacity *)

Lemma even_below_capacity (n : Z) :
  Z.even n = true -> n < MAX_BUFFER_SIZE -> n <= MAX_BUFFER_SIZE - 2.
Proof.
  unfold MAX_BUFFER_SIZE. intros He Hn.
  apply Z.even_spec in He. destruct He as [k ->]. lia.
Qed.

Lemma initial_tight : tight initial.
Proof. unfold tight. vm_compute. repeat split; discriminate. Qed.

Lemma tight_range (s : globals) : tight s -> 0 <= bufSize s <= MAX_BUFFER_SIZE.
Proof. unfold tight, MAX_BUFFER_SIZE. intros (_ & Hb & _). lia. Qed.

Lemma flushed_tight (s : globals) : tight s -> tight (flushed s).
Proof.
  unfold tight, flushed. intros (He & Hb & Hl & H2 & H1).
  destruct (Z.leb_spec (bufSize s) 0); [auto|].
  simpl. unfold MAX_BUFFER_SIZE in *. repeat split; (assumption || lia).
Qed.

Lemma item_tight (q : submit) (s s' : globals) (t : list call) :
  tight s -> item q s = Some (tt, s', t) -> tight s'.
Proof.
  intros Hs Hrun. pose proof (tight_range s Hs) as Hr.
  destruct Hs as (He & Hb & Hl & H2 & H1).
  unfold item in Hrun. destruct (degenerate (q_clip q)) eqn:Hd.
  { rewrite item_degenerate in Hrun by assumption.
    injection Hrun as <- <-. unfold tight. auto. }
  rewrite item_run in Hrun by assumption. injection Hrun as <- <-.
  assert (Hbatch : Z.even (bufSize (batch_for s (q_name q) (q_opacity q)
                     (q_composite_op q) (q_filter_color q) (q_filter_type q)))
                   = true
                   /\ 0 <= bufSize (batch_for s (q_name q) (q_opacity q)
                        (q_composite_op q) (q_filter_color q) (q_filter_type q))
                      <= MAX_BUFFER_SIZE - 4).
  { unfold batch_for.
    destruct (flush_needed s (q_name q) (q_opacity q) (q_composite_op q)
                (q_filter_color q) (q_filter_type q)) eqn:Hf.
    - simpl. unfold flushed, MAX_BUFFER_SIZE.
      destruct (Z.leb_spec (bufSize s) 0); simpl.
      + replace (bufSize s) with 0 by lia. split; [reflexivity|lia].
      + split; [reflexivity|lia].
    - pose proof (flush_needed_false_room _ _ _ _ _ _ Hr Hf) as Hroom.
      split; [assumption|].
      assert (He2 : Z.even (bufSize s + 2) = true)
        by (rewrite Z.even_add, He; reflexivity).
      pose proof (even_below_capacity (bufSize s + 2) He2 Hroom). lia. }
  destruct Hbatch as [Heb Hbb]. unfold MAX_BUFFER_SIZE in *.
  unfold tight, MAX_BUFFER_SIZE. simpl.
  rewrite !length_insert, Z.even_add, Heb.
  rewrite !list_lookup_insert_ne by lia.
  repeat split; (assumption || lia).
Qed.

(** X6.  In every state reached from the initial one, [bufSize] is even and at
    most [MAX_BUFFER_SIZE - 2]: a batch holds at most 511 quads, and the
    last two slots of [buffer] are never written. *)
Theorem last_slots_never_used (ops : list op) :
  exists s t,
    run ops initial = Some (tt, s, t)
    /\ Z.even (bufSize s) = true
    /\ 0 <= bufSize s <= MAX_BUFFER_SIZE - 2
    /\ buffer s !! Z.to_nat (MAX_BUFFER_SIZE - 2) = Some zero_bufobj
    /\ buffer s !! Z.to_nat (MAX_BUFFER_SIZE - 1) = Some zero_bufobj.
Proof.
  destruct (run_calls tight (fun _ => True) (fun _ => True)
              tight_range flushed_tight
              (fun q s s' t _ => item_tight q s s' t) I
              (fun _ _ _ _ => I) ops initial
              (Forall_trivial_ops ops) initial_tight)
    as (s & t & Hrun & (He & Hb & _ & H2 & H1) & _).
  exists s, t. auto.
Qed.

(** X7.  Every draw call of a run from the initial state is a triangle list
    starting at vertex 0 whose vertex count is a multiple of 6, at least 6
    (one quad) and at most 3066 (511 quads). *)
Theorem draw_calls_cover_whole_quads (ops : list op) mode first count :
  glDrawArrays mode first count ∈ trace_of (run ops initial) ->
  mode = GL_TRIANGLES /\ first = 0
  /\ 6 <= count <= 3066 /\ count mod 6 = 0.
Proof.
  intros Hin.
  destruct (run_calls tight (fun _ => True)
              (fun c => match c with
                        | glDrawArrays m f n =>
                            m = GL_TRIANGLES /\ f = 0
                            /\ 6 <= n <= 3066 /\ n mod 6 = 0
                        | _ => True
                        end)
              tight_range flushed_tight
              (fun q s s' t _ => item_tight q s s' t) I)
    with (ops := ops) (s := initial)
    as (s & t & Hrun & _ & Hall).
  - intros s c Hs Hc. destruct c; try exact I.
    apply flush_draw_calls in Hc. destruct Hc as (Hpos & -> & -> & ->).
    destruct Hs as (He & Hb & _). unfold MAX_BUFFER_SIZE in Hb.
    rewrite mul3_in_range by (unfold MAX_BUFFER_SIZE; lia).
    apply Z.even_spec in He. destruct He as [k Hk]. rewrite Hk.
    repeat split; try lia.
    replace (3 * (2 * k)) with (k * 6) by lia. apply Z.mod_mul. lia.
  - apply Forall_trivial_ops.
  - apply initial_tight.
  - rewrite Hrun in Hin. simpl in Hin. apply (Hall _ Hin).
Qed.

(** X8.  Every texture a run binds is the handle of a quad submitted in that
    run (with a clip that is not degenerate), bound as [GL_TEXTURE_2D]; the
    initial handle -1 is bound only if it was submitted. *)
Theorem bound_textures_were_submitted (ops : list op) target name :
  glBindTexture target name ∈ trace_of (run ops initial) ->
  target = GL_TEXTURE_2D
  /\ exists q, Item q ∈ ops /\ degenerate (q_clip q) = false
               /\ q_name q = name.
Proof.
  intros Hin.
  set (R := fun n => exists q, Item q ∈ ops /\ degenerate (q_clip q) = false
                               /\ q_name q = n).
  destruct (run_calls
              (fun s => 0 <= bufSize s <= MAX_BUFFER_SIZE
                        /\ (0 < bufSize s -> R (lastName s)))
              (fun q => degenerate (q_clip q) = false -> R (q_name q))
              (fun c => match c with
                        | glBindTexture tg n => tg = GL_TEXTURE_2D /\ R n
                        | _ => True
                        end))
    with (ops := ops) (s := initial)
    as (s & t & Hrun & _ & Hall).
  - intros s [Hb _]. exact Hb.
  - intros s [Hb Hn]. unfold flushed, MAX_BUFFER_SIZE in *.
    destruct (Z.leb_spec (bufSize s) 0); simpl; split; auto; lia.
  - intros q s s' t Hq [Hb Hn] Hitem. unfold item in Hitem.
    destruct (degenerate (q_clip q)) eqn:Hd.
    { rewrite item_degenerate in Hitem by assumption.
      injection Hitem as <- <-. auto. }
    rewrite item_run in Hitem by assumption. injection Hitem as <- <-.
    simpl. unfold batch_for.
    destruct (flush_needed s (q_name q) (q_opacity q) (q_composite_op q)
                (q_filter_color q) (q_filter_type q)) eqn:Hf.
    + simpl. split; [|auto]. unfold flushed, MAX_BUFFER_SIZE.
      destruct (Z.leb_spec (bufSize s) 0); simpl; lia.
    + pose proof (flush_needed_false_room _ _ _ _ _ _ Hb Hf).
      split; [lia|]. intros _.
      unfold flush_needed in Hf.
      repeat (apply orb_false_elim in Hf; destruct Hf as [Hf ?]).
      apply negb_false_iff, Z.eqb_eq in Hf. rewrite <- Hf. auto.
  - exact I.
  - intros s c [Hb Hn] Hc. destruct c; try exact I.
    apply flush_bind_texture_calls in Hc. destruct Hc as (Hpos & -> & ->).
    auto.
  - apply Forall_forall. intros [q|] Hq; [|exact I].
    intros Hd. exists q. auto.
  - split; [unfold MAX_BUFFER_SIZE; simpl; lia|]. simpl. lia.
  - rewrite Hrun in Hin. simpl in Hin. apply (Hall _ Hin).
Qed.

(** X9.  The opacity a run hands to the shader (last component of the draw
    colour) is always [> 0]: batches with an opacity that is zero,
    negative or NaN never reach the GPU. *)
Theorem draw_color_opacity_positive (ops : list op) v0 v1 v2 v3 :
  glUniform4f draw_color v0 v1 v2 v3 ∈ trace_of (run ops initial) ->
  CFloat.gtb v3 (CFloat.of_int 0) = true.
Proof.
  intros Hin.
  destruct (run_calls buffer_ok (fun _ => True)
              (fun c => match c with
                        | glUniform4f draw_color _ _ _ d =>
                            CFloat.gtb d (CFloat.of_int 0) = true
                        | _ => True
                        end))
    with (ops := ops) (s := initial)
    as (s & t & Hrun & _ & Hall).
  - intros s [Hb _]. exact Hb.
  - apply flushed_ok.
  - intros q s s' t _ Hs Hitem.
    destruct (item_ok q s Hs) as (s1 & t1 & Hrun1 & Hs1).
    rewrite Hrun1 in Hitem. injection Hitem as <- <-. exact Hs1.
  - exact I.
  - intros s c _ Hc. destruct c as [| | |loc a b c d| | | | |]; try exact I.
    destruct loc; try exact I.
    apply flush_draw_color_calls in Hc. destruct Hc as [-> Ho]. exact Ho.
  - apply Forall_trivial_ops.
  - apply initial_ok.
  - rewrite Hrun in Hin. simpl in Hin. apply (Hall _ Hin).
Qed.

(** *** No quad is lost or drawn twice *)





(** *** Submits dropped by the clip test leave no mark *)

(** X11.  A sequence of calls and the same sequence without its submits of
    degenerate clip end in the same state with the same trace (and fail
    alike). *)
Theorem degenerate_submits_invisible (ops : list op) (s : globals) :
  run ops s = run (List.filter visible ops) s.
Proof.
  revert s. induction ops as [|o ops IH]; intros s; [reflexivity|].
  simpl List.filter. destruct (visible o) eqn:Hv.
  - simpl. rewrite !run_bind.
    destruct (exec o s) as [[[[] s1] t1]|]; [|reflexivity].
    rewrite IH. reflexivity.
  - destruct o as [q|]; [|discriminate]. simpl in Hv.
    apply negb_false_iff in Hv.
    simpl. rewrite run_bind. unfold item.
    rewrite item_degenerate by assumption.
    rewrite <- IH. destruct (run ops s) as [[[[] s2] t2]|]; reflexivity.
Qed.

End Runs.

(* ------------------------------------------------------------------ *)
(** ** Further properties: what a submit writes *)

Section Quads.
Context `{Headers}.

(** The quad of a submit that passes the clip test is in the two slots
    below the new counter. *)
Lemma item_slots mv name sw sh ow oh src dest clip opacity cop fc ft (s : globals) :
  degenerate clip = false ->
  buffer_ok s ->
  exists s' t,
    draw_textures_item mv name sw sh ow oh src dest clip opacity cop fc ft s
    = Some (tt, s', t)
    /\ 2 <= bufSize s' <= MAX_BUFFER_SIZE
    /\ buffer s' !! Z.to_nat (bufSize s' - 2)
       = Some (fst (triangles mv sw sh src dest))
    /\ buffer s' !! Z.to_nat (bufSize s' - 1)
       = Some (snd (triangles mv sw sh src dest)).
Proof.
  intros Hd [Hb Hl]. rewrite item_run by assumption.
  set (b := batch_for s name opacity cop fc ft).
  assert (Hroom : 0 <= bufSize b /\ bufSize b + 2 <= MAX_BUFFER_SIZE).
  { subst b. unfold batch_for.
    destruct (flush_needed s name opacity cop fc ft) eqn:Hf.
    - simpl. unfold flushed, MAX_BUFFER_SIZE.
      destruct (Z.leb_spec (bufSize s) 0); simpl; lia.
    - pose proof (flush_needed_false_room _ _ _ _ _ _ Hb Hf). lia. }
  unfold MAX_BUFFER_SIZE in *.
  eexists _, _. split; [reflexivity|]. simpl bufSize. simpl buffer.
  replace (bufSize b + 2 - 2) with (bufSize b) by lia.
  replace (bufSize b + 2 - 1) with (bufSize b + 1) by lia.
  split; [lia|]. split.
  - rewrite list_lookup_insert_ne by lia.
    apply list_lookup_insert_eq. lia.
  - apply list_lookup_insert_eq. rewrite length_insert. lia.
Qed.

(** X12.  The six vertices of an appended quad, from the four corners
    [(x1,y1) .. (x4,y4)] that [matrix_3x3_multiply] returns for the
    destination rectangle: the first triangle is corners 4, 3, 1, the
    second corners 3, 2, 1, and a corner carries the same texture
    coordinate in both: 4 (sMin,tMax), 3 (sMax,tMax), 2 (sMax,tMin),
    1 (sMin,tMin).  The triangles share the edge from corner 3 to
    corner 1. *)
Theorem quad_vertices
    mv name sw sh ow oh src dest clip opacity cop fc ft (s : globals) :
  degenerate clip = false ->
  buffer_ok s ->
  let c := matrix_3x3_multiply mv dest in
  let sMin := CFloat.div (rect_x src) (CFloat.of_int sw) in
  let tMin := CFloat.div (rect_y src) (CFloat.of_int sh) in
  let sMax := CFloat.div (CFloat.add (rect_x src) (rect_width src))
                         (CFloat.of_int sw) in
  let tMax := CFloat.div (CFloat.add (rect_y src) (rect_height src))
                         (CFloat.of_int sh) in
  exists s' t o o2,
    draw_textures_item mv name sw sh ow oh src dest clip opacity cop fc ft s
    = Some (tt, s', t)
    /\ buffer s' !! Z.to_nat (bufSize s' - 2) = Some o
    /\ buffer s' !! Z.to_nat (bufSize s' - 1) = Some o2
    /\ vertices_of o = [ ((x4 c, y4 c), (sMin, tMax));
                         ((x3 c, y3 c), (sMax, tMax));
                         ((x1 c, y1 c), (sMin, tMin)) ]
    /\ vertices_of o2 = [ ((x3 c, y3 c), (sMax, tMax));
                          ((x2 c, y2 c), (sMax, tMin));
                          ((x1 c, y1 c), (sMin, tMin)) ].
Proof.
  intros Hd Hs c sMin tMin sMax tMax.
  destruct (item_slots mv name sw sh ow oh src dest clip opacity cop fc ft s
              Hd Hs) as (s' & t & Hrun & _ & Ho & Ho2).
  exists s', t, (fst (triangles mv sw sh src dest)),
    (snd (triangles mv sw sh src dest)).
  repeat split; assumption.
Qed.

Lemma div_by_zero_non_finite (x : float) :
  non_finite (CFloat.div x (CFloat.of_int 0)) = true.
Proof. destruct x; reflexivity. Qed.

(** X13.  A texture width or height of 0 is not rejected: the quad is appended,
    and every s coordinate (width 0), respectively every t coordinate
    (height 0), written for it is an infinity or a NaN. *)
Theorem zero_texture_size_non_finite
    mv name sw sh ow oh src dest clip opacity cop fc ft (s : globals) :
  degenerate clip = false ->
  buffer_ok s ->
  exists s' t o o2,
    draw_textures_item mv name sw sh ow oh src dest clip opacity cop fc ft s
    = Some (tt, s', t)
    /\ buffer s' !! Z.to_nat (bufSize s' - 2) = Some o
    /\ buffer s' !! Z.to_nat (bufSize s' - 1) = Some o2
    /\ (sw = 0 ->
        Forall (fun x => non_finite x = true)
          [srcX1 o; srcX2 o; srcX3 o; srcX1 o2; srcX2 o2; srcX3 o2])
    /\ (sh = 0 ->
        Forall (fun y => non_finite y = true)
          [srcY1 o; srcY2 o; srcY3 o; srcY1 o2; srcY2 o2; srcY3 o2]).
Proof.
  intros Hd Hs.
  destruct (item_slots mv name sw sh ow oh src dest clip opacity cop fc ft s
              Hd Hs) as (s' & t & Hrun & _ & Ho & Ho2).
  exists s', t, (fst (triangles mv sw sh src dest)),
    (snd (triangles mv sw sh src dest)).
  split; [assumption|]. split; [assumption|]. split; [assumption|].
  split; intros ->; simpl; repeat constructor; apply div_by_zero_non_finite.
Qed.

Lemma nan_differs (x : float) : CFloat.neb x S754_nan = true.
Proof. destruct x; reflexivity. Qed.

(** X14.  A submit with a NaN opacity always calls the flush, even right after
    a submit with the same NaN opacity, and the batch it starts is
    discarded by its flush without any call to the GPU. *)
Theorem nan_opacity_flushes_and_is_dropped
    mv name sw sh ow oh src dest clip cop fc ft (s : globals) :
  degenerate clip = false ->
  0 <= bufSize s <= MAX_BUFFER_SIZE ->
  exists s' t,
    draw_textures_item mv name sw sh ow oh src dest clip S754_nan cop fc ft s
    = Some (tt, s', t)
    /\ t = draw_textures_flush_call :: trace_of (draw_textures_flush s)
    /\ lastOpacity s' = S754_nan
    /\ bufSize s' = 2
    /\ draw_textures_flush s' = Some (tt, set_bufSize 0 s', []).
Proof.
  intros Hd Hb. rewrite item_run by assumption.
  assert (Hf : flush_needed s name S754_nan cop fc ft = true).
  { unfold flush_needed. rewrite nan_differs.
    rewrite !orb_true_r. reflexivity. }
  unfold batch_for. rewrite Hf.
  assert (Hz : bufSize (flushed s) = 0).
  { unfold flushed. destruct (Z.leb_spec (bufSize s) 0); simpl; lia. }
  eexists _, _. split; [reflexivity|]. split; [reflexivity|].
  simpl. rewrite Hz. split; [reflexivity|]. split; [reflexivity|].
  apply flush_skipped; simpl; [lia|reflexivity].
Qed.

(** X15.  A submit into an empty buffer reaches the GPU with nothing: whatever
    state it changes, its flush finds no quad, and the new quad is the
    only one batched. *)
Theorem submit_on_empty_buffer_no_gl
    mv name sw sh ow oh src dest clip opacity cop fc ft (s : globals) :
  degenerate clip = false ->
  bufSize s = 0 ->
  exists s' t,
    draw_textures_item mv name sw sh ow oh src dest clip opacity cop fc ft s
    = Some (tt, s', t)
    /\ bufSize s' = 2
    /\ ((t = [] /\ last_known s' = last_known s)
        \/ (t = [draw_textures_flush_call]
            /\ last_known s' = (name, opacity, cop, fc, ft))).
Proof.
  intros Hd Hz.
  rewrite item_run by (assumption || (rewrite Hz; unfold MAX_BUFFER_SIZE; lia)).
  rewrite (flush_empty s) by lia. simpl trace_of.
  unfold batch_for, flushed. rewrite Hz. simpl.
  destruct (flush_needed s name opacity cop fc ft);
    eexists _, _; (split; [reflexivity|]); simpl; rewrite ?Hz;
    (split; [reflexivity|]); [right | left]; split; reflexivity.
Qed.

(** *** Quads of one batch lie in the buffer in submission order *)

Lemma matches_no_flush (q : submit) (s : globals) :
  0 <= bufSize s -> bufSize s + 2 < MAX_BUFFER_SIZE ->
  matches s q -> needs_flush s q = false.
Proof.
  intros H0 Hroom (Hn & Ho & Hc & Hfc & Hft).
  unfold needs_flush.
  apply flush_needed_no_trigger; [unfold MAX_BUFFER_SIZE in *; lia|].
  unfold trigger. rewrite Ho, Hfc.
  intros [Hx|[Hx|[Hx|[Hx|[Hx|Hx]]]]]; try congruence; try discriminate; lia.
Qed.

Lemma append_matching (q : submit) (s : globals) :
  buffer_ok s ->
  degenerate (q_clip q) = false ->
  matches s q ->
  bufSize s + 2 < MAX_BUFFER_SIZE ->
  exists s1,
    item q s = Some (tt, s1, [])
    /\ buffer_ok s1
    /\ bufSize s1 = bufSize s + 2
    /\ last_known s1 = last_known s
    /\ buffer s1 = <[S (Z.to_nat (bufSize s)) := snd (quad_of q)]>
                     (<[Z.to_nat (bufSize s) := fst (quad_of q)]> (buffer s)).
Proof.
  intros [Hb Hl] Hd Hm Hroom.
  pose proof (matches_no_flush q s ltac:(lia) Hroom Hm) as Hf.
  unfold needs_flush in Hf.
  unfold item. rewrite item_run by assumption.
  unfold batch_for. rewrite Hf. eexists. split; [reflexivity|].
  unfold buffer_ok. simpl. rewrite !length_insert.
  replace (Z.to_nat (bufSize s + 1)) with (S (Z.to_nat (bufSize s))) by lia.
  repeat split; (assumption || lia || reflexivity).
Qed.

(** X16.  Quads submitted one after the other under the batch's tuple, while
    there is room, make no call, leave the slots batched before them as
    they are, and lie behind them in submission order: the [k]-th one in
    slots [bufSize + 2k] and [bufSize + 2k + 1]. *)
Theorem batched_in_submission_order (reqs : list submit) (s : globals) :
  buffer_ok s ->
  Forall (fun q => degenerate (q_clip q) = false /\ matches s q) reqs ->
  bufSize s + 2 * Z.of_nat (length reqs) < MAX_BUFFER_SIZE ->
  exists s',
    run (map Item reqs) s = Some (tt, s', [])
    /\ bufSize s' = bufSize s + 2 * Z.of_nat (length reqs)
    /\ last_known s' = last_known s
    /\ (forall i : nat,
           (i < Z.to_nat (bufSize s))%nat -> buffer s' !! i = buffer s !! i)
    /\ (forall (k : nat) (q : submit),
           reqs !! k = Some q ->
           buffer s' !! (Z.to_nat (bufSize s) + 2 * k)%nat
           = Some (fst (quad_of q))
           /\ buffer s' !! (Z.to_nat (bufSize s) + 2 * k + 1)%nat
              = Some (snd (quad_of q))).
Proof.
  intros Hs Hall. revert s Hs Hall.
  induction reqs as [|q reqs IH]; intros s Hs Hall Hroom.
  - exists s. split; [reflexivity|]. split; [simpl; lia|].
    split; [reflexivity|]. split; [reflexivity|].
    intros k q Hk. rewrite lookup_nil in Hk. discriminate.
  - apply Forall_cons in Hall. destruct Hall as [[Hd Hm] Hall].
    rewrite length_cons, Nat2Z.inj_succ in Hroom.
    pose proof Hs as [Hb Hl].
    destruct (append_matching q s Hs Hd Hm ltac:(lia))
      as (s1 & Hrun & Hs1 & Hb1 & Hk1 & Hbuf1).
    assert (Hall1 : Forall (fun q => degenerate (q_clip q) = false
                                     /\ matches s1 q) reqs).
    { eapply Forall_impl; [exact Hall|]. intros q' [Hd' Hm'].
      split; [assumption|]. unfold last_known in Hk1.
      injection Hk1 as Hn Ho Hc Hfc Hft.
      unfold matches in *. rewrite Hn, Ho, Hc, Hfc, Hft. exact Hm'. }
    destruct (IH s1 Hs1 Hall1 ltac:(lia))
      as (s' & Hrest & Hb' & Hk' & Hold & Hnew).
    exists s'. split; [simpl; rewrite run_bind, Hrun, Hrest; reflexivity|].
    rewrite length_cons, Nat2Z.inj_succ.
    split; [lia|]. split; [congruence|].
    assert (Hn1 : Z.to_nat (bufSize s1) = S (S (Z.to_nat (bufSize s)))) by lia.
    unfold MAX_BUFFER_SIZE in *.
    split.
    + intros i Hi. rewrite Hold by lia. rewrite Hbuf1.
      rewrite !list_lookup_insert_ne by lia. reflexivity.
    + intros [|k] q' Hq'.
      * simpl in Hq'. injection Hq' as <-.
        rewrite !Hold by lia. rewrite Hbuf1. split.
        -- rewrite list_lookup_insert_ne by lia.
           replace (Z.to_nat (bufSize s) + 2 * 0)%nat
             with (Z.to_nat (bufSize s)) by lia.
           apply list_lookup_insert_eq. lia.
        -- replace (Z.to_nat (bufSize s) + 2 * 0 + 1)%nat
             with (S (Z.to_nat (bufSize s))) by lia.
           apply list_lookup_insert_eq. rewrite length_insert. lia.
      * simpl in Hq'. destruct (Hnew k q' Hq') as [Hf Hsn].
        replace (Z.to_nat (bufSize s) + 2 * S k)%nat
          with (Z.to_nat (bufSize s1) + 2 * k)%nat by lia.
        replace (Z.to_nat (bufSize s1) + 2 * k + 1)%nat
          with (Z.to_nat (bufSize s1) + 2 * k + 1)%nat in Hsn by lia.
        split; assumption.
Qed.

End Quads.

(* ------------------------------------------------------------------ *)
(** ** The further properties at the sample inputs *)

Lemma single_shader_ignores_filter_witness :
  @draw_textures_flush single_shader_headers one_quad_multiply =
  Some (tt, set_bufSize 0 one_quad_multiply,
        glBlendFunc GL_ONE GL_ONE_MINUS_SRC_ALPHA
        :: tealeaf_shaders_bind PRIMARY_SHADER
        :: glUniform4f draw_color (f32 1) (f32 1) (f32 1) (f32 1)
        :: texture_and_draw one_quad_multiply).
Proof.
  refine (@single_shader_ignores_filter single_shader_headers
            one_quad_multiply _ _ _);
    vm_compute; reflexivity.
Defined.

Lemma no_filter_primary_shader_witness :
  @draw_textures_flush sample_headers one_quad =
  Some (tt, set_bufSize 0 one_quad,
        glBlendFunc GL_ONE GL_ONE_MINUS_SRC_ALPHA
        :: tealeaf_shaders_bind PRIMARY_SHADER
        :: glUniform4f draw_color (f32 1) (f32 1) (f32 1) (f32 1)
        :: texture_and_draw one_quad).
Proof.
  refine (@no_filter_primary_shader sample_headers one_quad _ _ _ _);
    vm_compute; reflexivity.
Defined.

Lemma linear_add_shader_uniforms_witness :
  @draw_textures_flush sample_headers one_quad_linear_add =
  Some (tt, set_bufSize 0 one_quad_linear_add,
        glBlendFunc GL_ONE GL_ONE_MINUS_SRC_ALPHA
        :: tealeaf_shaders_bind LINEAR_ADD_SHADER
        :: glUniform4f add_color quarter (CFloat.div (f32 1) (f32 8)) half
                       (f32 0)
        :: glUniform4f draw_color (f32 1) (f32 1) (f32 1) (f32 1)
        :: texture_and_draw one_quad_linear_add).
Proof.
  refine (@linear_add_shader_uniforms sample_headers one_quad_linear_add
            _ _ _ _ _);
    vm_compute; (reflexivity || discriminate).
Defined.

Lemma multiply_filter_draw_color_witness :
  @draw_textures_flush sample_headers one_quad_multiply =
  Some (tt, set_bufSize 0 one_quad_multiply,
        glBlendFunc GL_ONE GL_ONE_MINUS_SRC_ALPHA
        :: tealeaf_shaders_bind PRIMARY_SHADER
        :: glUniform4f draw_color half quarter (f32 1) (f32 1)
        :: texture_and_draw one_quad_multiply).
Proof.
  refine (@multiply_filter_draw_color sample_headers one_quad_multiply
            _ _ _ _ _ _);
    vm_compute; (reflexivity || discriminate).
Defined.

Lemma flush_draws_once_witness :
  exists t,
    @draw_textures_flush sample_headers one_quad
    = Some (tt, set_bufSize 0 one_quad, t)
    /\ last t = Some (glDrawArrays GL_TRIANGLES 0 6)
    /\ List.filter is_draw_call t = [glDrawArrays GL_TRIANGLES 0 6]
    /\ List.filter is_bind_texture t = [glBindTexture GL_TEXTURE_2D 7].
Proof.
  refine (@flush_draws_once sample_headers one_quad _ _).
  - vm_compute. split; [reflexivity|discriminate].
  - vm_compute. reflexivity.
Defined.

Lemma draw_calls_cover_whole_quads_witness :
  GL_TRIANGLES = GL_TRIANGLES /\ 0 = 0 /\ 6 <= 6 <= 3066 /\ 6 mod 6 = 0.
Proof.
  apply (@draw_calls_cover_whole_quads sample_headers
           [Item opaque_submit; Flush] GL_TRIANGLES 0 6).
  vm_compute.
  repeat (first [ apply list_elem_of_here | apply list_elem_of_further ]).
Defined.

Lemma bound_textures_were_submitted_witness :
  GL_TEXTURE_2D = GL_TEXTURE_2D
  /\ exists q, Item q ∈ [Item opaque_submit; Item other_texture_submit]
               /\ degenerate (q_clip q) = false
               /\ q_name q = 7.
Proof.
  apply (@bound_textures_were_submitted sample_headers
           [Item opaque_submit; Item other_texture_submit] GL_TEXTURE_2D 7).
  vm_compute.
  repeat (first [ apply list_elem_of_here | apply list_elem_of_further ]).
Defined.

Lemma draw_color_opacity_positive_witness :
  CFloat.gtb (f32 1) (CFloat.of_int 0) = true.
Proof.
  apply (@draw_color_opacity_positive sample_headers
           [Item opaque_submit; Flush] (f32 1) (f32 1) (f32 1) (f32 1)).
  vm_compute.
  repeat (first [ apply list_elem_of_here | apply list_elem_of_further ]).
Defined.


Lemma quad_vertices_witness :
  exists s' t o o2,
    @item sample_headers opaque_submit one_quad = Some (tt, s', t)
    /\ buffer s' !! Z.to_nat (bufSize s' - 2) = Some o
    /\ buffer s' !! Z.to_nat (bufSize s' - 1) = Some o2
    /\ vertices_of o
       = [ ((f32 0, f32 40), (CFloat.div (f32 10) (f32 100), CFloat.div (f32 60) (f32 200)));
           ((f32 30, f32 40), (CFloat.div (f32 40) (f32 100), CFloat.div (f32 60) (f32 200)));
           ((f32 0, f32 0), (CFloat.div (f32 10) (f32 100), CFloat.div (f32 20) (f32 200))) ]
    /\ vertices_of o2
       = [ ((f32 30, f32 40), (CFloat.div (f32 40) (f32 100), CFloat.div (f32 60) (f32 200)));
           ((f32 30, f32 0), (CFloat.div (f32 40) (f32 100), CFloat.div (f32 20) (f32 200)));
           ((f32 0, f32 0), (CFloat.div (f32 10) (f32 100), CFloat.div (f32 20) (f32 200))) ].
Proof.
  refine (@quad_vertices sample_headers
            (f32 0, f32 0) 7 100 200 100 200
            (sample_rect 10 20 30 40) (sample_rect 0 0 30 40)
            (sample_rect 0 0 320 480) (f32 1) 1340 black 0 one_quad _ _).
  - vm_compute. reflexivity.
  - split; [vm_compute; split; discriminate | vm_compute; reflexivity].
Defined.

Lemma zero_texture_size_non_finite_witness :
  exists s' t o o2,
    @draw_textures_item sample_headers (f32 0, f32 0) 7 0 200 0 200
      (sample_rect 10 20 30 40) (sample_rect 0 0 30 40)
      (sample_rect 0 0 320 480) (f32 1) 1340 black 0 one_quad
    = Some (tt, s', t)
    /\ buffer s' !! Z.to_nat (bufSize s' - 2) = Some o
    /\ buffer s' !! Z.to_nat (bufSize s' - 1) = Some o2
    /\ Forall (fun x => non_finite x = true)
         [srcX1 o; srcX2 o; srcX3 o; srcX1 o2; srcX2 o2; srcX3 o2].
Proof.
  destruct (@zero_texture_size_non_finite sample_headers
              (f32 0, f32 0) 7 0 200 0 200
              (sample_rect 10 20 30 40) (sample_rect 0 0 30 40)
              (sample_rect 0 0 320 480) (f32 1) 1340 black 0 one_quad)
    as (s' & t & o & o2 & Hrun & Ho & Ho2 & Hw & _).
  - vm_compute. reflexivity.
  - split; [vm_compute; split; discriminate | vm_compute; reflexivity].
  - exists s', t, o, o2. repeat split; try assumption.
    apply Hw. reflexivity.
Defined.

Lemma nan_opacity_flushes_and_is_dropped_witness :
  exists s' t,
    @item sample_headers nan_submit one_quad = Some (tt, s', t)
    /\ t = draw_textures_flush_call
           :: trace_of (@draw_textures_flush sample_headers one_quad)
    /\ lastOpacity s' = S754_nan
    /\ bufSize s' = 2
    /\ @draw_textures_flush sample_headers s'
       = Some (tt, set_bufSize 0 s', []).
Proof.
  refine (@nan_opacity_flushes_and_is_dropped sample_headers
            (f32 0, f32 0) 7 100 200 100 200
            (sample_rect 10 20 30 40) (sample_rect 0 0 30 40)
            (sample_rect 0 0 320 480) 1340 black 0 one_quad _ _).
  - vm_compute. reflexivity.
  - vm_compute. split; discriminate.
Defined.

Lemma submit_on_empty_buffer_no_gl_witness :
  exists s' t,
    @item sample_headers opaque_submit initial = Some (tt, s', t)
    /\ bufSize s' = 2
    /\ ((t = [] /\ last_known s' = last_known initial)
        \/ (t = [draw_textures_flush_call]
            /\ last_known s' = (7, f32 1, 1340, black, 0))).
Proof.
  refine (@submit_on_empty_buffer_no_gl sample_headers
            (f32 0, f32 0) 7 100 200 100 200
            (sample_rect 10 20 30 40) (sample_rect 0 0 30 40)
            (sample_rect 0 0 320 480) (f32 1) 1340 black 0 initial _ _).
  - vm_compute. reflexivity.
  - reflexivity.
Defined.

Lemma batched_in_submission_order_witness :
  exists s',
    @run sample_headers (map Item [opaque_submit; opaque_submit]) one_quad
    = Some (tt, s', [])
    /\ bufSize s' = 6
    /\ buffer s' !! 4%nat = Some (fst (@quad_of sample_headers opaque_submit))
    /\ buffer s' !! 5%nat = Some (snd (@quad_of sample_headers opaque_submit)).
Proof.
  destruct (@batched_in_submission_order sample_headers
              [opaque_submit; opaque_submit] one_quad)
    as (s' & Hrun & Hb & _ & _ & Hnew).
  - split; [vm_compute; split; discriminate | vm_compute; reflexivity].
  - repeat constructor; vm_compute; reflexivity.
  - vm_compute. reflexivity.
  - exists s'. split; [exact Hrun|]. split; [exact Hb|].
    exact (Hnew 1%nat opaque_submit eq_refl).
Defined.
